(** * Audio recorder with input monitoring: level meter, silence trimmer,
      monitor playback and recording session

    A shallow embedding of [audio_recorder_armed.py]
    (class [AudioRecorderRX11Armed]).  Floating-point samples and levels are
    idealised as real numbers; Python integers are [Z] and array lengths and
    indices are [nat]. *)

From Stdlib Require Import String Ascii DecimalString DecimalZ DecimalPos.
From Stdlib Require Import Reals Lra Lia List ZArith Bool Arith.
Import ListNotations.

Open Scope R_scope.

(** ** numpy primitives used by the recorder *)

(** [np.sum] over a one-dimensional array. *)
Definition np_sum (a : list R) : R := fold_right Rplus 0 a.

(** [a ** 2], element-wise. *)
Definition np_square (a : list R) : list R := map (fun x => x * x) a.

(** [np.mean]: the sum divided by the number of elements. *)
Definition np_mean (a : list R) : R := np_sum a / INR (length a).

(** [np.log10]. *)
Definition np_log10 (x : R) : R := ln x / ln 10.

(** The root-mean-square computed on line 513:
    [np.sqrt(np.mean(audio_data**2))]. *)
Definition rms (audio_data : list R) : R := sqrt (np_mean (np_square audio_data)).

(** ** [calculate_db] (lines 508-518)

    Over the reals the root-mean-square vanishes on digital silence only.  In
    binary64 the square of a sample below about 1e-162 underflows to zero, so
    a block that quiet reads -100 as well. *)

Definition calculate_db (audio_data : list R) : R :=
  if Nat.eqb (length audio_data) 0 then -100
  else
    let rms := rms audio_data in
    if Rgt_dec rms 0 then 20 * np_log10 rms else -100.

(** ** Arrays

    The recorder runs with [self.channels = 2]: the blocks delivered by the
    input stream and the concatenated recording are two-dimensional, one
    (left, right) row per frame.  One-dimensional arrays appear as channel
    columns and as the literal [np.array([])]. *)

Inductive ndarray : Type :=
| Arr1 (samples : list R)
| Arr2 (rows : list (R * R)).

(** [len(a)]: the size of the first axis. *)
Definition len (a : ndarray) : nat :=
  match a with
  | Arr1 samples => length samples
  | Arr2 rows => length rows
  end.

(** Python's [l[a:b]] for non-negative bounds. *)
Definition slice {A : Type} (a b : nat) (l : list A) : list A :=
  firstn (b - a) (skipn a l).

(** [audio_data[a:b]] along the first axis. *)
Definition arr_slice (a b : nat) (arr : ndarray) : ndarray :=
  match arr with
  | Arr1 samples => Arr1 (slice a b samples)
  | Arr2 rows => Arr2 (slice a b rows)
  end.

(** [frame[:, 0]] and [frame[:, 1]]. *)
Definition column0 (rows : list (R * R)) : list R := map fst rows.
Definition column1 (rows : list (R * R)) : list R := map snd rows.

(** ** [trim_silence] (lines 844-906) *)

(** The fields of [self] read by the trimmer. *)
Record trim_settings : Type := {
  trim_silence_start : bool;
  trim_silence_end : bool;
  trim_threshold_db : R
}.

Definition frame_length : nat := 2048.

(** Lines 863-869: the level of one frame, the louder channel when the frame
    is two-dimensional. *)
Definition frame_level (frame : ndarray) : R :=
  match frame with
  | Arr2 rows => Rmax (calculate_db (column0 rows)) (calculate_db (column1 rows))
  | Arr1 samples => calculate_db samples
  end.

(** Lines 857-871: the list [frame_levels]. *)
Definition frame_levels (audio_data : ndarray) (num_frames : nat) : list R :=
  map (fun i =>
         let start_idx := (i * frame_length)%nat in
         let end_idx := (start_idx + frame_length)%nat in
         frame_level (arr_slice start_idx end_idx audio_data))
      (seq 0 num_frames).

(** Lines 876-879: [for i, level in enumerate(frame_levels)], leaving
    [start_frame] as it was when no level exceeds the threshold. *)
Fixpoint scan_forward (threshold : R) (levels : list R) (i start_frame : nat)
  : nat :=
  match levels with
  | [] => start_frame
  | level :: rest =>
      if Rgt_dec level threshold then i
      else scan_forward threshold rest (S i) start_frame
  end.

(** Lines 884-887: [for i in range(num_frames - 1, -1, -1)]; [k] is the number
    of indices still to visit, so that the index visited next is [k - 1]. *)
Fixpoint scan_backward (threshold : R) (levels : list R) (k end_frame : nat)
  : nat :=
  match k with
  | O => end_frame
  | S i =>
      if Rgt_dec (nth i levels 0) threshold then S i
      else scan_backward threshold levels i end_frame
  end.

(** Lines 873-879: [start_frame]. *)
Definition start_frame (self : trim_settings) (levels : list R) : nat :=
  if trim_silence_start self
  then scan_forward (trim_threshold_db self) levels 0 0
  else 0%nat.

(** Lines 881-887: [end_frame]. *)
Definition end_frame (self : trim_settings) (levels : list R) (num_frames : nat)
  : nat :=
  if trim_silence_end self
  then scan_backward (trim_threshold_db self) levels num_frames num_frames
  else num_frames.

Definition trim_silence (self : trim_settings) (audio_data : ndarray) : ndarray :=
  if Nat.eqb (len audio_data) 0 then audio_data
  else
    let num_frames := (len audio_data / frame_length)%nat in
    if Nat.eqb num_frames 0 then audio_data
    else
      let levels := frame_levels audio_data num_frames in
      let start_frame := start_frame self levels in
      let end_frame := end_frame self levels num_frames in
      if (end_frame <=? start_frame)%nat then Arr1 []
      else
        let start_sample := (start_frame * frame_length)%nat in
        let end_sample := Nat.min (end_frame * frame_length) (len audio_data) in
        arr_slice start_sample end_sample audio_data.

(** ** Blocks and queues *)

(** One block as delivered by the input stream, opened with
    [channels=self.channels] (two): a two-dimensional array, one
    (left, right) row per frame. *)
Definition block : Type := list (R * R).

(** [queue.Queue()]: created without [maxsize] (lines 30-31), so [put] never
    blocks and always appends; [get_nowait] (and [get] once its timeout has
    run out) raises [queue.Empty] on an empty queue, modelled by [None]. *)
Definition Queue (A : Type) : Type := list A.

Definition put {A : Type} (q : Queue A) (item : A) : Queue A := q ++ [item].

Definition get_nowait {A : Type} (q : Queue A) : option (A * Queue A) :=
  match q with
  | [] => None
  | item :: rest => Some (item, rest)
  end.

(** ** The recorder object *)

(** [os.path.join(folder, name)], kept symbolic: the separator depends on the
    platform. *)
Inductive path : Type :=
| os_path_join (folder name : string).

(** Calls handed to the Tk main loop with [self.root.after(0, ...)].  Only the
    two that drive the session are tracked; meter, label and message-box
    updates are left out. *)
Inductive scheduled : Type :=
| CallStartRecording
| CallStopRecording.

(** The settings read by the audio path. *)
Record settings : Type := {
  sample_rate : Z;
  auto_mode : bool;
  silence_threshold_db : R;
  silence_duration : R;
  min_recording_duration : R;
  trim : trim_settings;
  monitor_volume : R;
  output_folder : string;
  prefix_var : string
}.

(** The mutable fields of [self], followed by the two effects the model keeps:
    the calls scheduled on the main loop and the files written by
    [sf.write]. *)
Record recorder : Type := {
  cfg : settings;
  is_recording : bool;
  is_armed : bool;
  audio_queue : Queue block;
  monitor_queue : Queue block;
  recorded_frames : list block;
  current_filename : option path;
  silence_start_time : option R;
  recording_start_time : option R;
  in_sound_segment : bool;
  current_level_l : R;
  current_level_r : R;
  counter_var : Z;
  after_calls : list scheduled;
  files : list (path * ndarray)
}.

(** The values assigned in [__init__] (lines 26-75); [recordings] is the
    folder [Path.home() / "Recordings"]. *)
Definition default_settings (recordings : string) : settings := {|
  sample_rate := 44100;
  auto_mode := false;
  silence_threshold_db := -40;
  silence_duration := 2;
  min_recording_duration := 1;
  trim := {| trim_silence_start := true; trim_silence_end := true;
             trim_threshold_db := -50 |};
  monitor_volume := 7 / 10;
  output_folder := recordings;
  prefix_var := "Recording"%string
|}.

Definition init (c : settings) : recorder := {|
  cfg := c;
  is_recording := false;
  is_armed := false;
  audio_queue := [];
  monitor_queue := [];
  recorded_frames := [];
  current_filename := None;
  silence_start_time := None;
  recording_start_time := None;
  in_sound_segment := false;
  current_level_l := -100;
  current_level_r := -100;
  counter_var := 1;
  after_calls := [];
  files := []
|}.

(** Field assignments. *)

Definition set_levels (l r : R) (self : recorder) : recorder := {|
  cfg := cfg self;
  is_recording := is_recording self;
  is_armed := is_armed self;
  audio_queue := audio_queue self;
  monitor_queue := monitor_queue self;
  recorded_frames := recorded_frames self;
  current_filename := current_filename self;
  silence_start_time := silence_start_time self;
  recording_start_time := recording_start_time self;
  in_sound_segment := in_sound_segment self;
  current_level_l := l;
  current_level_r := r;
  counter_var := counter_var self;
  after_calls := after_calls self;
  files := files self
|}.

Definition set_is_recording (b : bool) (self : recorder) : recorder := {|
  cfg := cfg self;
  is_recording := b;
  is_armed := is_armed self;
  audio_queue := audio_queue self;
  monitor_queue := monitor_queue self;
  recorded_frames := recorded_frames self;
  current_filename := current_filename self;
  silence_start_time := silence_start_time self;
  recording_start_time := recording_start_time self;
  in_sound_segment := in_sound_segment self;
  current_level_l := current_level_l self;
  current_level_r := current_level_r self;
  counter_var := counter_var self;
  after_calls := after_calls self;
  files := files self
|}.

Definition set_audio_queue (q : Queue block) (self : recorder) : recorder := {|
  cfg := cfg self;
  is_recording := is_recording self;
  is_armed := is_armed self;
  audio_queue := q;
  monitor_queue := monitor_queue self;
  recorded_frames := recorded_frames self;
  current_filename := current_filename self;
  silence_start_time := silence_start_time self;
  recording_start_time := recording_start_time self;
  in_sound_segment := in_sound_segment self;
  current_level_l := current_level_l self;
  current_level_r := current_level_r self;
  counter_var := counter_var self;
  after_calls := after_calls self;
  files := files self
|}.

Definition set_monitor_queue (q : Queue block) (self : recorder) : recorder := {|
  cfg := cfg self;
  is_recording := is_recording self;
  is_armed := is_armed self;
  audio_queue := audio_queue self;
  monitor_queue := q;
  recorded_frames := recorded_frames self;
  current_filename := current_filename self;
  silence_start_time := silence_start_time self;
  recording_start_time := recording_start_time self;
  in_sound_segment := in_sound_segment self;
  current_level_l := current_level_l self;
  current_level_r := current_level_r self;
  counter_var := counter_var self;
  after_calls := after_calls self;
  files := files self
|}.

Definition set_recorded_frames (fs : list block) (self : recorder) : recorder := {|
  cfg := cfg self;
  is_recording := is_recording self;
  is_armed := is_armed self;
  audio_queue := audio_queue self;
  monitor_queue := monitor_queue self;
  recorded_frames := fs;
  current_filename := current_filename self;
  silence_start_time := silence_start_time self;
  recording_start_time := recording_start_time self;
  in_sound_segment := in_sound_segment self;
  current_level_l := current_level_l self;
  current_level_r := current_level_r self;
  counter_var := counter_var self;
  after_calls := after_calls self;
  files := files self
|}.

Definition set_in_sound_segment (b : bool) (self : recorder) : recorder := {|
  cfg := cfg self;
  is_recording := is_recording self;
  is_armed := is_armed self;
  audio_queue := audio_queue self;
  monitor_queue := monitor_queue self;
  recorded_frames := recorded_frames self;
  current_filename := current_filename self;
  silence_start_time := silence_start_time self;
  recording_start_time := recording_start_time self;
  in_sound_segment := b;
  current_level_l := current_level_l self;
  current_level_r := current_level_r self;
  counter_var := counter_var self;
  after_calls := after_calls self;
  files := files self
|}.

Definition set_silence_start_time (t : option R) (self : recorder) : recorder := {|
  cfg := cfg self;
  is_recording := is_recording self;
  is_armed := is_armed self;
  audio_queue := audio_queue self;
  monitor_queue := monitor_queue self;
  recorded_frames := recorded_frames self;
  current_filename := current_filename self;
  silence_start_time := t;
  recording_start_time := recording_start_time self;
  in_sound_segment := in_sound_segment self;
  current_level_l := current_level_l self;
  current_level_r := current_level_r self;
  counter_var := counter_var self;
  after_calls := after_calls self;
  files := files self
|}.

(** [self.root.after(0, call)]. *)
Definition root_after (call : scheduled) (self : recorder) : recorder := {|
  cfg := cfg self;
  is_recording := is_recording self;
  is_armed := is_armed self;
  audio_queue := audio_queue self;
  monitor_queue := monitor_queue self;
  recorded_frames := recorded_frames self;
  current_filename := current_filename self;
  silence_start_time := silence_start_time self;
  recording_start_time := recording_start_time self;
  in_sound_segment := in_sound_segment self;
  current_level_l := current_level_l self;
  current_level_r := current_level_r self;
  counter_var := counter_var self;
  after_calls := after_calls self ++ [call];
  files := files self
|}.

(** [sf.write(filename, audio_data, ...)] returning normally. *)
Definition sf_write (filename : path) (audio_data : ndarray) (self : recorder)
  : recorder := {|
  cfg := cfg self;
  is_recording := is_recording self;
  is_armed := is_armed self;
  audio_queue := audio_queue self;
  monitor_queue := monitor_queue self;
  recorded_frames := recorded_frames self;
  current_filename := current_filename self;
  silence_start_time := silence_start_time self;
  recording_start_time := recording_start_time self;
  in_sound_segment := in_sound_segment self;
  current_level_l := current_level_l self;
  current_level_r := current_level_r self;
  counter_var := counter_var self;
  after_calls := after_calls self;
  files := files self ++ [(filename, audio_data)]
|}.

(** ** [update_levels] (lines 520-531) and [input_callback] (lines 558-590) *)

Definition update_levels (audio_data : ndarray) (self : recorder) : recorder :=
  match audio_data with
  | Arr2 rows =>
      set_levels (calculate_db (column0 rows)) (calculate_db (column1 rows)) self
  | Arr1 samples =>
      set_levels (calculate_db samples) (calculate_db samples) self
  end.

Definition input_callback (indata : block) (self : recorder) : recorder :=
  let audio_copy := indata in
  let self := update_levels (Arr2 audio_copy) self in
  let self :=
    if is_recording self
    then set_audio_queue (put (audio_queue self) audio_copy) self
    else self in
  let self :=
    if is_armed self
    then set_monitor_queue (put (monitor_queue self) audio_copy) self
    else self in
  if auto_mode (cfg self) && negb (is_recording self) then
    let max_level := Rmax (current_level_l self) (current_level_r self) in
    if Rgt_dec max_level (silence_threshold_db (cfg self)) then
      if negb (in_sound_segment self) then
        root_after CallStartRecording
          (set_silence_start_time None (set_in_sound_segment true self))
      else self
    else set_in_sound_segment false self
  else self.

(** ** [output_callback] (lines 592-620)

    The callback receives the requested frame count and fills [outdata],
    which is returned here next to the updated recorder. *)

(** [np.zeros((frames, self.channels))]. *)
Definition np_zeros (frames : nat) : block := repeat (0, 0) frames.

(** [data * self.monitor_volume]. *)
Definition scale (volume : R) (data : block) : block :=
  map (fun row => (fst row * volume, snd row * volume)) data.

Definition output_callback (frames : nat) (self : recorder) : recorder * block :=
  match get_nowait (monitor_queue self) with
  | Some (data, rest) =>
      let data := scale (monitor_volume (cfg self)) data in
      let data :=
        if (length data <? frames)%nat then
          let padding := np_zeros (frames - length data) in
          data ++ padding
        else if (frames <? length data)%nat then firstn frames data
        else data in
      (set_monitor_queue rest self, data)
  | None => (self, np_zeros frames)
  end.

(** ** [start_recording] (lines 732-759) *)

(** [str(n)] for a Python integer, also as the f-string field [{n}].  CPython
    3.11 and later raise [ValueError] on integers of more than 4300 decimal
    digits; counters and device indices stay far below. *)
Definition py_str (n : Z) : string := NilZero.string_of_int (Z.to_int n).

Fixpoint zeros (n : nat) : string :=
  match n with
  | O => EmptyString
  | S n' => String "0"%char (zeros n')
  end.

(** The format specification [04d]: sign first, then zeros up to a total
    width of four. *)
Definition format_04d (n : Z) : string :=
  if (n <? 0)%Z then
    let digits := py_str (- n) in
    String "-"%char (zeros (3 - String.length digits) ++ digits)%string
  else
    let digits := py_str n in
    (zeros (4 - String.length digits) ++ digits)%string.

(** [timestamp] is the text produced by [strftime] and [now] the value of
    [datetime.datetime.now()]; [os.makedirs] is taken to succeed. *)
Definition start_recording (timestamp : string) (now : R) (self : recorder)
  : recorder :=
  if is_recording self then self
  else
    let prefix := prefix_var (cfg self) in
    let counter := counter_var self in
    {|
      cfg := cfg self;
      is_recording := true;
      is_armed := is_armed self;
      audio_queue := audio_queue self;
      monitor_queue := monitor_queue self;
      recorded_frames := [];
      current_filename :=
        Some (os_path_join (output_folder (cfg self))
                (prefix ++ "_" ++ format_04d counter ++ "_" ++ timestamp
                 ++ ".wav")%string);
      silence_start_time := silence_start_time self;
      recording_start_time := Some now;
      in_sound_segment := in_sound_segment self;
      current_level_l := current_level_l self;
      current_level_r := current_level_r self;
      counter_var := counter + 1;
      after_calls := after_calls self;
      files := files self
    |}.

(** ** [recording_thread] (lines 761-785) *)

(** Python's [int(x)] on a float: truncation towards zero. *)
Definition py_int (x : R) : Z :=
  if Rle_dec 0 x then Int_part x else (- Int_part (- x))%Z.

(** The local variables of the thread. *)
Record thread_locals : Type := {
  silence_frames : Z;
  silence_frame_threshold : Z
}.

(** Lines 763-764. *)
Definition recording_thread_enter (self : recorder) : thread_locals := {|
  silence_frames := 0;
  silence_frame_threshold :=
    py_int (silence_duration (cfg self) * IZR (sample_rate (cfg self)) / 2048)
|}.

Inductive loop_status : Type :=
| Looping   (* back to the [while] test *)
| Exited    (* the loop was left: the test failed, or [break] *)
| Crashed.  (* an exception other than [queue.Empty] ended the thread *)

(** One pass through the [while] loop; [now] is what [datetime.datetime.now()]
    returns if the pass reads the clock. *)
Definition recording_thread_iter (now : R) (self : recorder) (t : thread_locals)
  : recorder * thread_locals * loop_status :=
  if negb (is_recording self) then (self, t, Exited)
  else
    match get_nowait (audio_queue self) with
    | None => (self, t, Looping)
    | Some (data, rest) =>
        let self := set_audio_queue rest self in
        let self := set_recorded_frames (recorded_frames self ++ [data]) self in
        if auto_mode (cfg self) then
          let max_level := Rmax (current_level_l self) (current_level_r self) in
          if Rlt_dec max_level (silence_threshold_db (cfg self)) then
            let t := {| silence_frames := silence_frames t + 1;
                        silence_frame_threshold := silence_frame_threshold t |} in
            if (silence_frame_threshold t <=? silence_frames t)%Z then
              match recording_start_time self with
              | Some started =>
                  let recording_duration := now - started in
                  if Rge_dec recording_duration (min_recording_duration (cfg self))
                  then (root_after CallStopRecording self, t, Exited)
                  else (self, t, Looping)
              | None => (self, t, Crashed)
              end
            else (self, t, Looping)
          else
            (self,
             {| silence_frames := 0;
                silence_frame_threshold := silence_frame_threshold t |},
             Looping)
        else (self, t, Looping)
    end.

(** ** [stop_recording] (lines 787-798) and [save_recording] (lines 800-842) *)

Definition stop_recording (self : recorder) : recorder :=
  if negb (is_recording self) then self
  else set_is_recording false self.

(** [np.concatenate(self.recorded_frames, axis=0)]. *)
Definition np_concatenate (frames : list block) : ndarray := Arr2 (concat frames).

(** [write_raises] tells whether [sf.write] raises. *)
Definition save_recording (write_raises : bool) (self : recorder) : recorder :=
  match recorded_frames self with
  | [] => self
  | _ :: _ =>
      let audio_data := np_concatenate (recorded_frames self) in
      let audio_data :=
        if trim_silence_start (trim (cfg self)) || trim_silence_end (trim (cfg self))
        then trim_silence (trim (cfg self)) audio_data
        else audio_data in
      if Nat.eqb (len audio_data) 0 then self
      else
        match current_filename self with
        | Some filename =>
            if write_raises then self else sf_write filename audio_data self
        | None => self
        end
  end.

(** ** The running program

    The audio callbacks, the recording thread and the main loop take turns;
    an event is one turn. *)

Inductive event : Type :=
| EvInput (indata : block)
| EvOutput (frames : nat)
| EvThread (now : R)
| EvStart (timestamp : string) (now : R)
| EvStop
| EvSave (write_raises : bool).

Record system : Type := {
  app : recorder;
  locals : thread_locals;
  status : loop_status
}.

Definition step (s : system) (ev : event) : system :=
  match ev with
  | EvInput indata =>
      {| app := input_callback indata (app s);
         locals := locals s; status := status s |}
  | EvOutput frames =>
      {| app := fst (output_callback frames (app s));
         locals := locals s; status := status s |}
  | EvThread now =>
      match status s with
      | Looping =>
          let '(self, t, st) := recording_thread_iter now (app s) (locals s) in
          {| app := self; locals := t; status := st |}
      | _ => s
      end
  | EvStart timestamp now =>
      if is_recording (app s) then s
      else
        let self := start_recording timestamp now (app s) in
        {| app := self; locals := recording_thread_enter self; status := Looping |}
  | EvStop =>
      {| app := stop_recording (app s); locals := locals s; status := status s |}
  | EvSave write_raises =>
      {| app := save_recording write_raises (app s);
         locals := locals s; status := status s |}
  end.

Definition run (evs : list event) (s : system) : system := fold_left step evs s.

(** ** Notions used in the statements *)

(** The decimal digit [d] as a character. *)
Definition digit (d : Z) : ascii := ascii_of_nat (48 + Z.to_nat d).

(** The four decimal digits of [n], leading zeros included. *)
Definition four_digits (n : Z) : string :=
  String (digit (n / 1000))
    (String (digit (n / 100 mod 10))
       (String (digit (n / 10 mod 10))
          (String (digit (n mod 10)) EmptyString))).

(** Every block the session holds, oldest first: those already collected by
    the recording thread, then those still waiting in the queue. *)
Definition captured (self : recorder) : list block :=
  recorded_frames self ++ audio_queue self.

(** The blocks delivered by the input callbacks of a run. *)
Definition inputs (evs : list event) : list block :=
  flat_map (fun ev => match ev with EvInput indata => [indata] | _ => [] end) evs.

(** Turns of the audio path: the two callbacks and the recording thread. *)
Definition audio_turn (ev : event) : bool :=
  match ev with
  | EvInput _ | EvOutput _ | EvThread _ => true
  | _ => false
  end.

Definition is_start (ev : event) : bool :=
  match ev with
  | EvStart _ _ => true
  | _ => false
  end.

(** The level the meter shows for a block: the louder channel. *)
Definition block_level (b : block) : R := frame_level (Arr2 b).

(** Line 772: what the recording thread reads when it collects a block,
    [max(self.current_level_l, self.current_level_r)]. *)
Definition meter (self : recorder) : R :=
  Rmax (current_level_l self) (current_level_r self).


(** What the recording thread gets to see during a run of audio turns: one
    entry for each pass that finds a block waiting, made of the meter
    reading at that moment - the level of the block delivered last - and
    the time of the pass.  [queued] is the number of blocks waiting and
    [reading] the meter before the run. *)
Fixpoint observe (evs : list event) (queued : nat) (reading : R)
  : list (R * R) :=
  match evs with
  | [] => []
  | EvInput indata :: rest => observe rest (S queued) (block_level indata)
  | EvThread now :: rest =>
      match queued with
      | O => observe rest O reading
      | S waiting => (reading, now) :: observe rest waiting reading
      end
  | _ :: rest => observe rest queued reading
  end.

Definition observations (evs : list event) (s : system) : list (R * R) :=
  observe evs (length (audio_queue (app s))) (meter (app s)).

(** The number of consecutive readings below the threshold at the head of a
    list of readings, on top of [count] when every reading is below. *)
Fixpoint leading_below (threshold : R) (count : Z) (readings : list R) : Z :=
  match readings with
  | [] => count
  | m :: rest =>
      if Rlt_dec m threshold
      then (leading_below threshold count rest + 1)%Z
      else 0%Z
  end.

(** The same at the end of the list: the run of readings below the threshold
    that ends with the last one, which is what lines 774-782 keep in
    [silence_frames]. *)
Definition trailing_below (threshold : R) (count : Z) (readings : list R) : Z :=
  leading_below threshold count (rev readings).

(** The entry [o], seen after the entries [earlier] by a thread whose counter
    stood at [count], is due to stop a session started at [started]: the
    reading is below the threshold, it brings the count of consecutive
    readings below the threshold to [needed] or more, and the minimum
    recording duration has passed. *)
Definition stop_due (c : settings) (needed count : Z) (started : R)
  (earlier : list (R * R)) (o : R * R) : Prop :=
  fst o < silence_threshold_db c /\
  (needed <= trailing_below (silence_threshold_db c) count
               (map fst earlier ++ [fst o]))%Z /\
  snd o - started >= min_recording_duration c.

(** An active auto-mode session, started at [started], whose recording
    thread is in its loop. *)
Definition session_active (started : R) (s : system) : Prop :=
  is_recording (app s) = true /\
  auto_mode (cfg (app s)) = true /\
  recording_start_time (app s) = Some started /\
  status s = Looping.

(** The number of blocks above the threshold that follow a block at or below
    it (or, for the first block, a cleared [in_sound_segment]). *)
Fixpoint rising_edges (threshold : R) (in_segment : bool) (blocks : list block)
  : nat :=
  match blocks with
  | [] => 0
  | b :: rest =>
      if Rgt_dec (block_level b) threshold
      then ((if in_segment then 0 else 1) + rising_edges threshold true rest)%nat
      else rising_edges threshold false rest
  end.

(** ** [draw_meters] (lines 533-556) and [update_duration] (lines 1143-1152) *)

(** [max(0, min(1, (level + 60) / 60))]. *)
Definition level_normalized (level : R) : R :=
  Rmax 0 (Rmin 1 ((level + 60) / 60)).

(** [int(width * level_normalized)] with [width = 400].  Over the reals; in
    binary64 the product can fall just short of a whole number and the bar
    comes out one pixel shorter (229 for 230 at -25.5 dB). *)
Definition bar_width (level : R) : Z := py_int (400 * level_normalized level).

Inductive colour : Type := red | yellow | green.

Definition meter_colour (level : R) : colour :=
  if Rgt_dec level (-6) then red
  else if Rgt_dec level (-18) then yellow else green.

(** The text of a level label: the level with one decimal, kept symbolic, or
    ["-inf dB"]. *)
Inductive level_text : Type :=
| Decibels (level : R)
| MinusInf.

Definition meter_label (level : R) : level_text :=
  if Rgt_dec level (-100) then Decibels level else MinusInf.

(** What [draw_meters] puts on one channel's canvas and label. *)
Definition draw_meter (level : R) : Z * colour * level_text :=
  (bar_width level, meter_colour level, meter_label level).

(** Float [x // y] and [x % y]: the floor of the quotient and what is left. *)
Definition py_floordiv (x y : R) : R := IZR (Int_part (x / y)).
Definition py_mod (x y : R) : R := x - y * py_floordiv x y.

(** The format specification [02d]. *)
Definition format_02d (n : Z) : string :=
  if (n <? 0)%Z then
    let digits := py_str (- n) in
    String "-"%char (zeros (1 - String.length digits) ++ digits)%string
  else
    let digits := py_str n in
    (zeros (2 - String.length digits) ++ digits)%string.

(** The text of the duration label and whether the update is scheduled
    again; [now] is [datetime.datetime.now()]. *)
Definition update_duration (now : R) (self : recorder) : string * bool :=
  match is_recording self, recording_start_time self with
  | true, Some started =>
      let duration := now - started in
      let minutes := py_int (py_floordiv duration 60) in
      let seconds := py_int (py_mod duration 60) in
      (("Duration: " ++ py_str minutes ++ ":" ++ format_02d seconds)%string, true)
  | _, _ => ("Duration: 0:00"%string, false)
  end.

(** The two decimal digits of [n]. *)
Definition two_digits (n : Z) : string :=
  String (digit (n / 10)) (String (digit (n mod 10)) EmptyString).

(** ** [save_settings] (lines 1166-1193) and [load_settings] (lines 1195-1222)

    The settings file holds one JSON object.  The attributes of [self] that
    the two methods touch are dynamically typed - [load_settings] stores
    whatever value the file holds - so they are kept as JSON values here. *)

Module Persist.

Inductive json : Type :=
| JNull
| JBool (b : bool)
| JInt (n : Z)
| JFloat (x : R)
| JStr (s : string).

(** A JSON object as read by [json.load]: keys with their values.  The
    values are scalars, as in every file written by [save_settings]. *)
Definition dict : Type := list (string * json).

Fixpoint lookup (key : string) (d : dict) : option json :=
  match d with
  | [] => None
  | (k, v) :: rest => if String.eqb k key then Some v else lookup key rest
  end.

(** [settings.get(key, default)]. *)
Definition get (d : dict) (key : string) (default : json) : json :=
  match lookup key d with
  | Some v => v
  | None => default
  end.

(** Python truth value, as tested by [if settings.get('rx11_path')]. *)
Definition truthy (v : json) : bool :=
  match v with
  | JNull => false
  | JBool b => b
  | JInt n => negb (n =? 0)%Z
  | JFloat x => if Req_dec_T x 0 then false else true
  | JStr s => negb (String.eqb s EmptyString)
  end.

Record fields : Type := {
  output_folder : json;
  file_prefix : json;
  file_counter : json;
  input_device_index : json;
  output_device_index : json;
  auto_mode : json;
  silence_threshold_db : json;
  silence_duration : json;
  rx11_auto_open : json;
  rx11_path : json;
  monitor_volume : json;
  is_armed : json;
  trim_silence_start : json;
  trim_silence_end : json;
  trim_threshold_db : json;
  create_video : json;
  video_folder : json;
  video_resolution : json
}.

(** The Tk variables read by [save_settings]. *)
Record vars : Type := {
  prefix_var : string;
  counter_var : Z;
  threshold_var : R;
  duration_var : R
}.

(** The object handed to [json.dump]. *)
Definition save_settings (self : fields) (v : vars) : dict :=
  [ ("output_folder"%string, output_folder self);
    ("file_prefix"%string, JStr (prefix_var v));
    ("file_counter"%string, JInt (counter_var v));
    ("input_device_index"%string, input_device_index self);
    ("output_device_index"%string, output_device_index self);
    ("auto_mode"%string, auto_mode self);
    ("silence_threshold_db"%string, JFloat (threshold_var v));
    ("silence_duration"%string, JFloat (duration_var v));
    ("rx11_auto_open"%string, rx11_auto_open self);
    ("rx11_path"%string, rx11_path self);
    ("monitor_volume"%string, monitor_volume self);
    ("is_armed"%string, is_armed self);
    ("trim_silence_start"%string, trim_silence_start self);
    ("trim_silence_end"%string, trim_silence_end self);
    ("trim_threshold_db"%string, trim_threshold_db self);
    ("create_video"%string, create_video self);
    ("video_folder"%string, video_folder self);
    ("video_resolution"%string, video_resolution self) ].

(** [file] is the object read from the settings file, or [None] when the
    file is missing or cannot be read as a JSON object: both exceptions are
    caught before any attribute is assigned. *)
Definition load_settings (file : option dict) (self : fields) : fields :=
  match file with
  | None => self
  | Some settings =>
      {| output_folder := get settings "output_folder" (output_folder self);
         file_prefix := get settings "file_prefix" (file_prefix self);
         file_counter := get settings "file_counter" (file_counter self);
         input_device_index :=
           get settings "input_device_index" (input_device_index self);
         output_device_index :=
           get settings "output_device_index" (output_device_index self);
         auto_mode := get settings "auto_mode" (auto_mode self);
         silence_threshold_db :=
           get settings "silence_threshold_db" (silence_threshold_db self);
         silence_duration := get settings "silence_duration" (silence_duration self);
         rx11_auto_open := get settings "rx11_auto_open" (rx11_auto_open self);
         rx11_path :=
           if truthy (get settings "rx11_path" JNull)
           then get settings "rx11_path" JNull
           else rx11_path self;
         monitor_volume := get settings "monitor_volume" (monitor_volume self);
         is_armed := is_armed self;
         trim_silence_start :=
           get settings "trim_silence_start" (trim_silence_start self);
         trim_silence_end := get settings "trim_silence_end" (trim_silence_end self);
         trim_threshold_db :=
           get settings "trim_threshold_db" (trim_threshold_db self);
         create_video := get settings "create_video" (create_video self);
         video_folder := get settings "video_folder" (video_folder self);
         video_resolution := get settings "video_resolution" (video_resolution self)
      |}
  end.

(** The keys [load_settings] looks up. *)
Definition loaded_keys : list string :=
  [ "output_folder"; "file_prefix"; "file_counter"; "input_device_index";
    "output_device_index"; "auto_mode"; "silence_threshold_db";
    "silence_duration"; "rx11_auto_open"; "rx11_path"; "monitor_volume";
    "trim_silence_start"; "trim_silence_end"; "trim_threshold_db";
    "create_video"; "video_folder"; "video_resolution" ]%string.

End Persist.

(** ** Device lists: [populate_input_devices] (lines 399-424) and
       [on_input_device_change] (lines 457-464) *)

(** The entries of [sd.query_devices()] that the input list reads. *)
Record device : Type := {
  name : string;
  max_input_channels : Z
}.

(** [str.lower()] on a text of ASCII characters: the letters A to Z become a
    to z and every other character is left as it is.  Outside ASCII
    [str.lower()] does more (the Kelvin sign U+212A becomes k, for one), so
    what is proved about names is proved for ASCII names. *)
Definition lower_char (c : ascii) : ascii :=
  let n := nat_of_ascii c in
  if (65 <=? n)%nat && (n <=? 90)%nat then ascii_of_nat (n + 32) else c.

Fixpoint lower (s : string) : string :=
  match s with
  | EmptyString => EmptyString
  | String c rest => String (lower_char c) (lower rest)
  end.

(** [s.isascii()]: every character is below 128. *)
Fixpoint isascii (s : string) : bool :=
  match s with
  | EmptyString => true
  | String c rest => (nat_of_ascii c <? 128)%nat && isascii rest
  end.

(** [sub in s]. *)
Definition contains (sub s : string) : bool :=
  match String.index 0 sub s with
  | Some _ => true
  | None => false
  end.

(** Line 409: the name test that selects a device. *)
Definition is_traktor (d : device) : bool :=
  contains "traktor" (lower (name d)) || contains "audio 6" (lower (name d)).

(** Line 406: [f"{i}: {device['name']}"]. *)
Definition device_label (i : nat) (d : device) : string :=
  (py_str (Z.of_nat i) ++ ": " ++ name d)%string.

(** [s.split(':')[0]]: the text before the first colon, all of it when there
    is none. *)
Fixpoint before_colon (s : string) : string :=
  match s with
  | EmptyString => EmptyString
  | String c rest =>
      if Ascii.eqb c ":"%char then EmptyString else String c (before_colon rest)
  end.

(** [int(s)] for a text made of decimal digits behind an optional minus
    sign.  [None] stands for every other text: Python raises [ValueError] on
    most of them and accepts a few layouts (a plus sign, surrounding blanks,
    underscores) that no device label starts with. *)
Definition py_int_of_str (s : string) : option Z :=
  option_map Z.of_int (NilZero.int_of_string s).

(** Lines 403-410: the loop over [enumerate(devices)], from index [i]. *)
Fixpoint scan_devices (i : nat) (devices : list device)
  (input_devices : list string) (input_device_index : option Z)
  : list string * option Z :=
  match devices with
  | [] => (input_devices, input_device_index)
  | d :: rest =>
      if (2 <=? max_input_channels d)%Z then
        scan_devices (S i) rest (input_devices ++ [device_label i d])
          (if is_traktor d then Some (Z.of_nat i) else input_device_index)
      else scan_devices (S i) rest input_devices input_device_index
  end.

(** [l[i]] for a Python integer [i]: negative indices count from the end,
    and [None] stands for [IndexError]. *)
Definition py_index {A : Type} (l : list A) (i : Z) : option A :=
  if (0 <=? i)%Z then nth_error l (Z.to_nat i)
  else if (- Z.of_nat (length l) <=? i)%Z
       then nth_error l (Z.to_nat (Z.of_nat (length l) + i))
       else None.

(** Lines 419-420 and 423-424: the first entry of the list is selected and
    its index read back from its label; [None] stands for the [ValueError]
    of [int]. *)
Definition select_first (input_devices : list string) (otherwise : option Z)
  : option (option Z) :=
  match input_devices with
  | [] => Some otherwise
  | first :: _ => option_map Some (py_int_of_str (before_colon first))
  end.

(** The values of the combo box and the new [self.input_device_index];
    [None] stands for an exception leaving the method. *)
Definition populate_input_devices
  (devices : list device) (input_device_index : option Z)
  : option (list string * option Z) :=
  let '(input_devices, input_device_index) :=
    scan_devices 0 devices [] input_device_index in
  match input_device_index with
  | Some idx =>
      match py_index devices idx with
      | Some _ => Some (input_devices, Some idx)
      | None =>
          option_map (fun index => (input_devices, index))
            (select_first input_devices (Some idx))
      end
  | None =>
      option_map (fun index => (input_devices, index))
        (select_first input_devices None)
  end.

(** A device that the loop both lists and selects. *)
Definition preferred (d : device) : bool :=
  (2 <=? max_input_channels d)%Z && is_traktor d.

(** * Theorems *)

(** ** Level meter *)

Lemma ln10_pos : 0 < ln 10.
Proof. rewrite <- ln_1. apply ln_increasing; lra. Qed.

Lemma rms_nonneg (b : list R) : 0 <= rms b.
Proof. apply sqrt_pos. Qed.

Lemma rms_nil : rms [] = 0.
Proof.
  unfold rms, np_mean, np_square, np_sum; simpl.
  unfold Rdiv; rewrite Rmult_0_l; apply sqrt_0.
Qed.

Lemma rms_singleton (x : R) : 0 <= x -> rms [x] = x.
Proof.
  intros Hx; unfold rms, np_mean, np_square, np_sum; simpl.
  replace ((x * x + 0) / 1) with (x * x) by lra.
  now apply sqrt_square.
Qed.

Lemma calculate_db_nil : calculate_db [] = -100.
Proof. reflexivity. Qed.

Lemma calculate_db_rms_zero (b : list R) : rms b = 0 -> calculate_db b = -100.
Proof.
  intros H; unfold calculate_db.
  destruct (length b =? 0)%nat; [reflexivity|].
  cbv zeta; destruct (Rgt_dec (rms b) 0) as [Hgt|_]; [lra | reflexivity].
Qed.

Lemma calculate_db_rms_pos (b : list R) :
  b <> [] -> 0 < rms b -> calculate_db b = 20 * np_log10 (rms b).
Proof.
  intros Hb Hpos; unfold calculate_db.
  destruct b as [|x b]; [congruence|]; simpl length.
  cbv zeta; cbn [Nat.eqb].
  destruct (Rgt_dec (rms (x :: b)) 0) as [_|Hn]; [reflexivity | lra].
Qed.

Lemma np_log10_inv_pow10 (n : nat) : np_log10 (/ 10 ^ n) = - INR n.
Proof.
  unfold np_log10.
  assert (H10 : 0 < 10 ^ n) by (apply pow_lt; lra).
  rewrite ln_Rinv by assumption.
  rewrite ln_pow by lra.
  pose proof ln10_pos. field. lra.
Qed.

Lemma np_log10_lt (x y : R) : 0 < x -> x < y -> np_log10 x < np_log10 y.
Proof.
  intros Hx Hxy; unfold np_log10.
  apply Rmult_lt_compat_r.
  - apply Rinv_0_lt_compat, ln10_pos.
  - now apply ln_increasing.
Qed.


(** The level that corresponds to -100 dB. *)
Lemma np_log10_floor : 20 * np_log10 (1 / 100000) = -100.
Proof.
  replace (1 / 100000) with (/ 10 ^ 5) by (simpl; lra).
  rewrite np_log10_inv_pow10; simpl; lra.
Qed.


(** C3 (as stated) fails: a one-sample block of amplitude 10^-6 has level
    -120 dB, below the claimed lower bound of -100. *)
Lemma calculate_db_range_counterexample :
  calculate_db [1 / 1000000] = -120 /\ ~ (-100 <= calculate_db [1 / 1000000]).
Proof.
  assert (H : calculate_db [1 / 1000000] = -120).
  { rewrite calculate_db_rms_pos.
    - rewrite rms_singleton by lra.
      replace (1 / 1000000) with (/ 10 ^ 6) by (simpl; lra).
      rewrite np_log10_inv_pow10; simpl; lra.
    - discriminate.
    - rewrite rms_singleton; lra. }
  split; [exact H | rewrite H; lra].
Qed.

(** C3 (amended): [calculate_db] returns a value in [-100, +inf) for every
    block that is empty, has a zero root-mean-square, or has a
    root-mean-square of at least 10^-5. *)
Theorem calculate_db_floor (b : list R) :
  b = [] \/ rms b = 0 \/ 1 / 100000 <= rms b -> -100 <= calculate_db b.
Proof.
  intros [-> | [H0 | Hge]].
  - rewrite calculate_db_nil; lra.
  - rewrite calculate_db_rms_zero by assumption; lra.
  - assert (Hb : b <> []) by (intros ->; rewrite rms_nil in Hge; lra).
    rewrite calculate_db_rms_pos by (assumption || lra).
    rewrite <- np_log10_floor.
    apply Rmult_le_compat_l; [lra|].
    destruct Hge as [Hlt | Heq].
    + left; apply np_log10_lt; [lra | assumption].
    + right; now rewrite Heq.
Qed.

Lemma calculate_db_floor_witness :
  (([1] : list R) = [] \/ rms [1] = 0 \/ 1 / 100000 <= rms [1]) /\
  -100 <= calculate_db [1].
Proof.
  assert (H : ([1] : list R) = [] \/ rms [1] = 0 \/ 1 / 100000 <= rms [1]).
  { right; right; rewrite rms_singleton; lra. }
  split; [exact H | exact (calculate_db_floor [1] H)].
Defined.




(** ** Slices *)

Lemma frame_length_pos : (0 < frame_length)%nat.
Proof. unfold frame_length; lia. Qed.

Lemma slice_length {A : Type} (a b : nat) (l : list A) :
  length (slice a b l) = Nat.min (b - a) (length l - a).
Proof. unfold slice; now rewrite length_firstn, length_skipn. Qed.

Lemma slice_slice {A : Type} (a b i j : nat) (l : list A) :
  (a + j <= b)%nat -> slice i j (slice a b l) = slice (a + i) (a + j) l.
Proof.
  intros H; unfold slice.
  rewrite skipn_firstn_comm, firstn_firstn, skipn_skipn.
  replace (Nat.min (j - i) (b - a - i)) with (a + j - (a + i))%nat by lia.
  now rewrite (Nat.add_comm i a).
Qed.

Lemma slice_all {A : Type} (b : nat) (l : list A) :
  (length l <= b)%nat -> slice 0 b l = l.
Proof.
  intros H; unfold slice; rewrite skipn_0, Nat.sub_0_r.
  now apply firstn_all2.
Qed.

Lemma slice_In {A : Type} (a b : nat) (l : list A) (x : A) :
  In x (slice a b l) -> In x l.
Proof.
  unfold slice; intros H.
  rewrite <- (firstn_skipn a l); apply in_or_app; right.
  rewrite <- (firstn_skipn (b - a) (skipn a l)); apply in_or_app; now left.
Qed.

Lemma len_arr_slice (a b : nat) (arr : ndarray) :
  len (arr_slice a b arr) = Nat.min (b - a) (len arr - a).
Proof. destruct arr; simpl; apply slice_length. Qed.

Lemma arr_slice_arr_slice (a b i j : nat) (arr : ndarray) :
  (a + j <= b)%nat ->
  arr_slice i j (arr_slice a b arr) = arr_slice (a + i) (a + j) arr.
Proof. intros H; destruct arr; simpl; f_equal; now apply slice_slice. Qed.

Lemma arr_slice_all (b : nat) (arr : ndarray) :
  (len arr <= b)%nat -> arr_slice 0 b arr = arr.
Proof. intros H; destruct arr; simpl in *; f_equal; now apply slice_all. Qed.

(** ** Frame levels *)

Lemma frame_levels_length (a : ndarray) (n : nat) :
  length (frame_levels a n) = n.
Proof. unfold frame_levels; now rewrite length_map, length_seq. Qed.

Lemma frame_levels_nth (a : ndarray) (n i : nat) :
  (i < n)%nat ->
  nth i (frame_levels a n) 0 =
  frame_level (arr_slice (i * frame_length) (i * frame_length + frame_length) a).
Proof.
  intros Hi; unfold frame_levels.
  set (f := fun i0 : nat => _).
  rewrite (nth_indep _ 0 (f 0%nat)) by (now rewrite length_map, length_seq).
  rewrite map_nth, seq_nth by assumption.
  reflexivity.
Qed.

(** The frames of a frame-aligned slice are the corresponding frames of the
    array it was cut from. *)
Lemma frame_levels_slice (a : ndarray) (n s e i : nat) :
  (e <= n)%nat -> (e * frame_length <= len a)%nat -> (s + i < e)%nat ->
  nth i (frame_levels
           (arr_slice (s * frame_length) (e * frame_length) a) (e - s)) 0 =
  nth (s + i) (frame_levels a n) 0.
Proof.
  intros Hen Hlen Hi.
  rewrite !frame_levels_nth by lia.
  rewrite arr_slice_arr_slice by nia.
  do 2 f_equal; lia.
Qed.

(** ** The two scans *)

(** The forward scan either stops on a frame above the threshold or visits
    every frame and leaves the default. *)
Lemma scan_forward_spec (th : R) (levels : list R) (i d : nat) :
  (exists k, (k < length levels)%nat /\
             scan_forward th levels i d = (i + k)%nat /\
             nth k levels 0 > th) \/
  (scan_forward th levels i d = d /\
   forall j, (j < length levels)%nat -> ~ nth j levels 0 > th).
Proof.
  revert i; induction levels as [|x rest IH]; intros i; simpl.
  - right; split; [reflexivity | intros j Hj; lia].
  - destruct (Rgt_dec x th) as [Hx | Hx].
    + left; exists 0%nat; repeat split; [lia | lia | assumption].
    + destruct (IH (S i)) as [(k & Hk & Hs & Hl) | (Hs & Hq)].
      * left; exists (S k); repeat split; [lia | lia | assumption].
      * right; split; [assumption|].
        intros [|j] Hj; [assumption | apply Hq; lia].
Qed.

Lemma scan_backward_spec (th : R) (levels : list R) (k d : nat) :
  (exists i, (i < k)%nat /\
             scan_backward th levels k d = S i /\
             nth i levels 0 > th /\
             forall j, (i < j < k)%nat -> ~ nth j levels 0 > th) \/
  (scan_backward th levels k d = d /\
   forall j, (j < k)%nat -> ~ nth j levels 0 > th).
Proof.
  induction k as [|k IH]; simpl.
  - right; split; [reflexivity | intros j Hj; lia].
  - destruct (Rgt_dec (nth k levels 0) th) as [Hx | Hx].
    + left; exists k; repeat split; [lia | assumption | intros j Hj; lia].
    + destruct IH as [(i & Hi & Hs & Hl & Hq) | (Hs & Hq)].
      * left; exists i; repeat split; [lia | assumption | assumption |].
        intros j Hj; destruct (Nat.eq_dec j k) as [-> | Hne];
          [assumption | apply Hq; lia].
      * right; split; [assumption|].
        intros j Hj; destruct (Nat.eq_dec j k) as [-> | Hne];
          [assumption | apply Hq; lia].
Qed.

(** A scan over levels that never exceed the threshold keeps its default. *)
Lemma scan_forward_quiet (th : R) (levels : list R) (i d : nat) :
  (forall j, (j < length levels)%nat -> ~ nth j levels 0 > th) ->
  scan_forward th levels i d = d.
Proof.
  intros Hq.
  destruct (scan_forward_spec th levels i d) as [(k & Hk & _ & Hl) | [Hs _]];
    [exfalso; exact (Hq k Hk Hl) | exact Hs].
Qed.

Lemma scan_backward_quiet (th : R) (levels : list R) (k d : nat) :
  (forall j, (j < k)%nat -> ~ nth j levels 0 > th) ->
  scan_backward th levels k d = d.
Proof.
  intros Hq.
  destruct (scan_backward_spec th levels k d) as [(i & Hi & _ & Hl & _) | [Hs _]];
    [exfalso; exact (Hq i Hi Hl) | exact Hs].
Qed.

(** What [start_frame] and [end_frame] can be. *)
Lemma start_frame_spec (self : trim_settings) (levels : list R) :
  ((start_frame self levels < length levels)%nat /\
   nth (start_frame self levels) levels 0 > trim_threshold_db self) \/
  (start_frame self levels = 0%nat /\
   (trim_silence_start self = false \/
    forall j, (j < length levels)%nat -> ~ nth j levels 0 > trim_threshold_db self)).
Proof.
  unfold start_frame; destruct (trim_silence_start self).
  - destruct (scan_forward_spec (trim_threshold_db self) levels 0 0)
      as [(k & Hk & Hs & Hl) | (Hs & Hq)].
    + left; rewrite Hs; simpl; now split.
    + right; split; [assumption | now right].
  - right; split; [reflexivity | now left].
Qed.

Lemma end_frame_spec (self : trim_settings) (levels : list R) (n : nat) :
  (exists i, (i < n)%nat /\ end_frame self levels n = S i /\
             nth i levels 0 > trim_threshold_db self /\
             forall j, (i < j < n)%nat -> ~ nth j levels 0 > trim_threshold_db self) \/
  (end_frame self levels n = n /\
   (trim_silence_end self = false \/
    forall j, (j < n)%nat -> ~ nth j levels 0 > trim_threshold_db self)).
Proof.
  unfold end_frame; destruct (trim_silence_end self).
  - destruct (scan_backward_spec (trim_threshold_db self) levels n n)
      as [(i & Hi & Hs & Hl & Hq) | (Hs & Hq)].
    + left; exists i; now repeat split.
    + right; split; [assumption | now right].
  - right; split; [reflexivity | now left].
Qed.

(** The start frame always lies strictly before the end frame: the range
    check on line 890 never fires. *)
Lemma frames_ordered (self : trim_settings) (levels : list R) (n : nat) :
  length levels = n -> (0 < n)%nat ->
  (start_frame self levels < end_frame self levels n <= n)%nat.
Proof.
  intros Hlen Hn.
  destruct (start_frame_spec self levels) as [[Hs Hl] | [Hs _]];
    destruct (end_frame_spec self levels n) as [(i & Hi & He & Hli & Hq) | [He _]];
    rewrite He; try lia.
  split; [|lia].
  destruct (Nat.lt_ge_cases i (start_frame self levels)) as [Hlt | Hge]; [|lia].
  exfalso; apply (Hq (start_frame self levels)); [lia | assumption].
Qed.

(** ** [trim_silence] *)

Lemma num_frames_bound (a : ndarray) :
  (len a / frame_length * frame_length <= len a)%nat.
Proof.
  rewrite Nat.mul_comm; apply Nat.Div0.mul_div_le.
Qed.

(** With at least one whole frame the result is the frame-aligned slice
    between [start_frame] and [end_frame]. *)
Lemma trim_silence_frames (self : trim_settings) (a : ndarray) :
  let n := (len a / frame_length)%nat in
  let levels := frame_levels a n in
  (0 < n)%nat ->
  trim_silence self a =
  arr_slice (start_frame self levels * frame_length)
            (end_frame self levels n * frame_length) a.
Proof.
  intros n levels Hn; unfold trim_silence; fold n; fold levels.
  pose proof (num_frames_bound a) as Hb; fold n in Hb.
  pose proof frame_length_pos as HF.
  pose proof (frames_ordered self levels n (frame_levels_length a n) Hn) as [Hlt Hle].
  assert (Hlen : (0 < len a)%nat) by nia.
  destruct (Nat.eqb_spec (len a) 0) as [H0 | _]; [lia|].
  destruct (Nat.eqb_spec n 0) as [H0 | _]; [lia|].
  cbv zeta.
  destruct (Nat.leb_spec (end_frame self levels n) (start_frame self levels))
    as [Hbad | _]; [lia|].
  f_equal; apply Nat.min_l; nia.
Qed.

Lemma trim_silence_short (self : trim_settings) (a : ndarray) :
  (len a < frame_length)%nat -> trim_silence self a = a.
Proof.
  intros H; unfold trim_silence.
  destruct (len a =? 0)%nat; [reflexivity|].
  rewrite Nat.div_small by assumption; reflexivity.
Qed.

Lemma start_frame_head (self : trim_settings) (levels : list R) :
  (0 < length levels)%nat -> nth 0 levels 0 > trim_threshold_db self ->
  start_frame self levels = 0%nat.
Proof.
  intros Hlen Hl; unfold start_frame.
  destruct (trim_silence_start self); [|reflexivity].
  destruct levels as [|x rest]; [reflexivity|]; simpl in *.
  destruct (Rgt_dec x (trim_threshold_db self)); [reflexivity | contradiction].
Qed.

Lemma start_frame_quiet (self : trim_settings) (levels : list R) :
  trim_silence_start self = false \/
  (forall j, (j < length levels)%nat -> ~ nth j levels 0 > trim_threshold_db self) ->
  start_frame self levels = 0%nat.
Proof.
  unfold start_frame; intros [-> | Hq]; [reflexivity|].
  destruct (trim_silence_start self); [|reflexivity].
  now apply scan_forward_quiet.
Qed.

Lemma end_frame_last (self : trim_settings) (levels : list R) (m : nat) :
  nth m levels 0 > trim_threshold_db self ->
  end_frame self levels (S m) = S m.
Proof.
  intros Hl; unfold end_frame.
  destruct (trim_silence_end self); [|reflexivity]; simpl.
  destruct (Rgt_dec (nth m levels 0) (trim_threshold_db self));
    [reflexivity | contradiction].
Qed.

Lemma end_frame_quiet (self : trim_settings) (levels : list R) (n : nat) :
  trim_silence_end self = false \/
  (forall j, (j < n)%nat -> ~ nth j levels 0 > trim_threshold_db self) ->
  end_frame self levels n = n.
Proof.
  unfold end_frame; intros [-> | Hq]; [reflexivity|].
  destruct (trim_silence_end self); [|reflexivity].
  now apply scan_backward_quiet.
Qed.

(** A frame-aligned slice whose first and last frames are the ones the scans
    stopped on is left alone by a second trim. *)
Lemma trim_silence_fixpoint (self : trim_settings) (a : ndarray) :
  let n := (len a / frame_length)%nat in
  let levels := frame_levels a n in
  let s := start_frame self levels in
  let e := end_frame self levels n in
  (0 < n)%nat ->
  trim_silence self (arr_slice (s * frame_length) (e * frame_length) a) =
  arr_slice (s * frame_length) (e * frame_length) a.
Proof.
  intros n levels s e Hn.
  pose proof (num_frames_bound a) as Hb; fold n in Hb.
  pose proof frame_length_pos as HF.
  pose proof (frames_ordered self levels n (frame_levels_length a n) Hn) as [Hlt Hle].
  fold s e in Hlt, Hle.
  set (r := arr_slice (s * frame_length) (e * frame_length) a).
  assert (Heb : (e * frame_length <= len a)%nat) by nia.
  assert (Hlen : len r = ((e - s) * frame_length)%nat).
  { unfold r; rewrite len_arr_slice; nia. }
  assert (Hn' : (len r / frame_length = e - s)%nat).
  { rewrite Hlen; apply Nat.div_mul; lia. }
  assert (Hnth : forall i, (s + i < e)%nat ->
            nth i (frame_levels r (e - s)) 0 = nth (s + i) levels 0).
  { intros i Hi; unfold r, levels; now apply frame_levels_slice. }
  rewrite trim_silence_frames; rewrite Hn'; [|lia].
  set (levels' := frame_levels r (e - s)) in *.
  assert (Hl' : length levels' = (e - s)%nat) by apply frame_levels_length.
  assert (Hs' : start_frame self levels' = 0%nat).
  { destruct (start_frame_spec self levels) as [[_ Hl] | [Hs0 [Hoff | Hq]]].
    - apply start_frame_head; [lia|].
      rewrite Hnth by lia; now rewrite Nat.add_0_r.
    - apply start_frame_quiet; now left.
    - apply start_frame_quiet; right; intros j Hj.
      rewrite Hnth by lia; apply Hq.
      unfold levels; rewrite frame_levels_length; lia. }
  assert (He' : end_frame self levels' (e - s) = (e - s)%nat).
  { destruct (end_frame_spec self levels n) as [(i & Hi & He & Hl & _) | [He [Hoff | Hq]]].
    - fold e in He.
      replace (e - s)%nat with (S (i - s)) by lia.
      apply end_frame_last.
      rewrite Hnth by lia.
      now replace (s + (i - s))%nat with i by lia.
    - apply end_frame_quiet; now left.
    - apply end_frame_quiet; right; intros j Hj.
      rewrite Hnth by lia; apply Hq; lia. }
  rewrite Hs', He', Nat.mul_0_l.
  apply arr_slice_all; lia.
Qed.

(** C5: trimming is idempotent, for every buffer, threshold and pair of
    trim flags. *)
Theorem trim_silence_idempotent (self : trim_settings) (audio_data : ndarray) :
  trim_silence self (trim_silence self audio_data) = trim_silence self audio_data.
Proof.
  destruct (Nat.eq_dec (len audio_data / frame_length) 0) as [H0 | Hn].
  - assert (Hshort : (len audio_data < frame_length)%nat).
    { apply Nat.div_small_iff; [pose proof frame_length_pos; lia | assumption]. }
    now rewrite !(trim_silence_short self audio_data Hshort).
  - rewrite (trim_silence_frames self audio_data) by lia.
    apply trim_silence_fixpoint; lia.
Qed.

(** C9: a non-empty buffer shorter than one frame is returned unchanged,
    whatever its contents, the threshold and the trim flags. *)
Theorem trim_silence_below_one_frame (self : trim_settings) (audio_data : ndarray) :
  (0 < len audio_data < frame_length)%nat ->
  trim_silence self audio_data = audio_data /\ len (trim_silence self audio_data) <> 0%nat.
Proof.
  intros [Hpos Hlt].
  rewrite trim_silence_short by assumption.
  split; [reflexivity | lia].
Qed.

Lemma trim_silence_below_one_frame_witness :
  let self := {| trim_silence_start := true; trim_silence_end := true;
                 trim_threshold_db := -50 |} in
  let audio_data := Arr2 [(0, 0)] in
  (0 < len audio_data < frame_length)%nat /\
  trim_silence self audio_data = audio_data.
Proof.
  intros self audio_data.
  assert (H : (0 < len audio_data < frame_length)%nat)
    by (unfold frame_length; simpl; lia).
  split; [exact H | exact (proj1 (trim_silence_below_one_frame self _ H))].
Defined.

(** ** Entirely silent buffers *)

Lemma np_sum_square_zeros (l : list R) :
  (forall x, In x l -> x = 0) -> np_sum (np_square l) = 0.
Proof.
  induction l as [|x l IH]; intros H; simpl; [reflexivity|].
  rewrite IH by (intros y Hy; apply H; now right).
  rewrite (H x) by now left.
  lra.
Qed.

Lemma calculate_db_zeros (l : list R) :
  (forall x, In x l -> x = 0) -> calculate_db l = -100.
Proof.
  intros H; apply calculate_db_rms_zero.
  unfold rms, np_mean; rewrite np_sum_square_zeros by assumption.
  unfold Rdiv; rewrite Rmult_0_l; apply sqrt_0.
Qed.

Lemma frame_level_zero_rows (rows : list (R * R)) :
  (forall r, In r rows -> r = (0, 0)) -> frame_level (Arr2 rows) = -100.
Proof.
  intros H; simpl.
  rewrite !calculate_db_zeros.
  - apply Rmax_left; lra.
  - intros x Hx; apply in_map_iff in Hx as (r & <- & Hr).
    now rewrite (H r Hr).
  - intros x Hx; apply in_map_iff in Hx as (r & <- & Hr).
    now rewrite (H r Hr).
Qed.

(** When no frame exceeds the threshold, both scans keep their defaults and
    the result is every whole frame of the buffer. *)
Lemma trim_silence_all_quiet (self : trim_settings) (a : ndarray) :
  let n := (len a / frame_length)%nat in
  (0 < n)%nat ->
  (forall j, (j < n)%nat ->
             ~ nth j (frame_levels a n) 0 > trim_threshold_db self) ->
  trim_silence self a = arr_slice 0 (n * frame_length) a.
Proof.
  intros n Hn Hq.
  rewrite trim_silence_frames by assumption; fold n.
  rewrite start_frame_quiet, end_frame_quiet; [reflexivity | now right |].
  right; now rewrite frame_levels_length.
Qed.

(** No non-empty buffer is ever trimmed down to nothing. *)
Lemma trim_silence_nonempty (self : trim_settings) (a : ndarray) :
  len a <> 0%nat -> len (trim_silence self a) <> 0%nat.
Proof.
  intros Hlen.
  pose proof frame_length_pos as HF.
  destruct (Nat.eq_dec (len a / frame_length) 0) as [H0 | Hn].
  - rewrite trim_silence_short; [assumption|].
    apply Nat.div_small_iff; [lia | assumption].
  - rewrite trim_silence_frames by lia.
    pose proof (frames_ordered self _ _
                  (frame_levels_length a (len a / frame_length))
                  (proj1 (Nat.neq_0_lt_0 _) Hn)) as [Hlt Hle].
    pose proof (num_frames_bound a) as Hb.
    rewrite len_arr_slice; nia.
Qed.

(** C1 at the failing input: one whole frame (2048 stereo rows) of digital
    silence, trimmed with both flags enabled and the default threshold of
    -50 dB.  No frame level exceeds the threshold, yet the buffer comes back
    whole instead of empty. *)
Theorem trim_silence_keeps_silent_frame :
  let self := {| trim_silence_start := true; trim_silence_end := true;
                 trim_threshold_db := -50 |} in
  let audio_data := Arr2 (repeat (0, 0) frame_length) in
  (forall j, (j < len audio_data / frame_length)%nat ->
     ~ nth j (frame_levels audio_data (len audio_data / frame_length)) 0
       > trim_threshold_db self) /\
  trim_silence self audio_data = audio_data /\
  len (trim_silence self audio_data) = frame_length.
Proof.
  intros self audio_data.
  pose proof frame_length_pos as HF.
  assert (Hlen : len audio_data = frame_length) by apply repeat_length.
  assert (Hn : (len audio_data / frame_length = 1)%nat).
  { rewrite Hlen; apply Nat.div_same; lia. }
  assert (Hq : forall j, (j < len audio_data / frame_length)%nat ->
     ~ nth j (frame_levels audio_data (len audio_data / frame_length)) 0
       > trim_threshold_db self).
  { intros j Hj; rewrite frame_levels_nth by assumption.
    unfold audio_data at 1; cbn [arr_slice].
    rewrite frame_level_zero_rows.
    - simpl; lra.
    - intros r Hr; apply slice_In in Hr.
      now apply repeat_spec in Hr. }
  assert (Ht : trim_silence self audio_data = audio_data).
  { rewrite trim_silence_all_quiet by (assumption || lia).
    apply arr_slice_all; rewrite Hn; lia. }
  split; [exact Hq | split; [exact Ht | now rewrite Ht]].
Qed.

(** ** Monitor playback *)

Lemma scale_length (g : R) (data : block) : length (scale g data) = length data.
Proof. apply length_map. Qed.

Lemma np_zeros_length (n : nat) : length (np_zeros n) = n.
Proof. apply repeat_length. Qed.

(** C6: on an empty monitor queue the output block is [frames] rows of zeros
    and the recorder is untouched; otherwise the oldest block is taken, each
    of its samples is multiplied by the monitor gain, and the result is
    truncated to [frames] rows when longer and padded with zero rows when
    shorter: row [i] of the output is row [i] of the block times the gain
    where the block has such a row, and zero beyond.  The length is [frames]
    in every case, and the function is total: nothing escapes the callback. *)
Theorem output_callback_spec (frames : nat) (self : recorder) :
  let self' := fst (output_callback frames self) in
  let outdata := snd (output_callback frames self) in
  let g := monitor_volume (cfg self) in
  length outdata = frames /\
  (monitor_queue self = [] -> outdata = repeat (0, 0) frames /\ self' = self) /\
  (forall data rest, monitor_queue self = data :: rest ->
     outdata = map (fun row => (fst row * g, snd row * g)) (firstn frames data)
               ++ repeat (0, 0) (frames - length data) /\
     (forall i, (i < frames)%nat ->
        nth i outdata (0, 0) =
        if (i <? length data)%nat
        then (fst (nth i data (0, 0)) * g, snd (nth i data (0, 0)) * g)
        else (0, 0)) /\
     monitor_queue self' = rest).
Proof.
  unfold output_callback.
  destruct (monitor_queue self) as [|data rest] eqn:Hq; simpl.
  - split; [apply np_zeros_length|].
    split; [intros _; now split | intros ? ? H; discriminate].
  - set (g := monitor_volume (cfg self)).
    assert (Hout :
      (if (length (scale g data) <? frames)%nat
       then scale g data ++ np_zeros (frames - length (scale g data))
       else if (frames <? length (scale g data))%nat
            then firstn frames (scale g data) else scale g data) =
      map (fun row => (fst row * g, snd row * g)) (firstn frames data)
      ++ repeat (0, 0) (frames - length data)).
    { rewrite scale_length; unfold np_zeros, scale.
      destruct (Nat.ltb_spec (length data) frames) as [Hlt | Hge].
      - now rewrite firstn_all2 by lia.
      - replace (frames - length data)%nat with 0%nat by lia.
        simpl; rewrite app_nil_r.
        destruct (Nat.ltb_spec frames (length data)) as [Hlt | Hle].
        + now rewrite firstn_map.
        + now rewrite firstn_all2 by lia. }
    rewrite Hout.
    split.
    + rewrite length_app, length_map, length_firstn, repeat_length; lia.
    + split; [intros H; discriminate|].
      intros d r H; injection H as <- <-.
      split; [reflexivity | split; [|reflexivity]].
      intros i Hi.
      destruct (Nat.ltb_spec i (length data)) as [Hlt | Hge].
      * rewrite app_nth1 by (rewrite length_map, length_firstn; lia).
        rewrite (nth_indep _ (0, 0) (fst (0, 0) * g, snd (0, 0) * g))
          by (rewrite length_map, length_firstn; lia).
        rewrite (map_nth (fun row => (fst row * g, snd row * g))).
        rewrite nth_firstn.
        destruct (Nat.ltb_spec i frames); [reflexivity | lia].
      * rewrite app_nth2 by (rewrite length_map, length_firstn; lia).
        apply nth_repeat.
Qed.

Lemma output_callback_spec_witness :
  let idle := init (default_settings "Recordings") in
  let self :=
    set_monitor_queue [[(1 / 2, - (1 / 2)); (1 / 4, 1 / 4); (1, 1)]; [(1, 1)]]
      idle in
  monitor_queue self =
    [[(1 / 2, - (1 / 2)); (1 / 4, 1 / 4); (1, 1)]; [(1, 1)]] /\
  snd (output_callback 2 self) =
    [(1 / 2 * (7 / 10), - (1 / 2) * (7 / 10));
     (1 / 4 * (7 / 10), 1 / 4 * (7 / 10))] /\
  snd (output_callback 4 self) =
    [(1 / 2 * (7 / 10), - (1 / 2) * (7 / 10));
     (1 / 4 * (7 / 10), 1 / 4 * (7 / 10));
     (1 * (7 / 10), 1 * (7 / 10));
     (0, 0)] /\
  nth 1 (snd (output_callback 4 self)) (0, 0) =
    (1 / 4 * (7 / 10), 1 / 4 * (7 / 10)) /\
  monitor_queue (fst (output_callback 2 self)) = [[(1, 1)]] /\
  snd (output_callback 2 idle) = [(0, 0); (0, 0)].
Proof.
  intros idle self.
  assert (H : monitor_queue self =
              [[(1 / 2, - (1 / 2)); (1 / 4, 1 / 4); (1, 1)]; [(1, 1)]])
    by reflexivity.
  split; [exact H|].
  destruct (proj2 (proj2 (output_callback_spec 2 self)) _ _ H)
    as (Hout2 & _ & Hrest).
  destruct (proj2 (proj2 (output_callback_spec 4 self)) _ _ H)
    as (Hout4 & Hrow & _).
  split; [exact Hout2|].
  split; [exact Hout4|].
  split; [exact (Hrow 1%nat (le_n_S _ _ (le_n_S _ _ (Nat.le_0_l 2))))|].
  split; [exact Hrest|].
  exact (proj1 (proj1 (proj2 (output_callback_spec 2 idle)) eq_refl)).
Defined.

(** ** Starting a session *)

(** C7: a start request made while a session is active changes nothing:
    filename, accumulated frames, counter, start time and every other field
    stay as they are, and no second recording thread is entered. *)
Theorem start_recording_active_noop
  (timestamp : string) (now : R) (self : recorder) :
  is_recording self = true ->
  start_recording timestamp now self = self /\
  forall s, app s = self -> step s (EvStart timestamp now) = s.
Proof.
  intros Hrec; split.
  - unfold start_recording; now rewrite Hrec.
  - intros s Hs; simpl; now rewrite Hs, Hrec.
Qed.

Lemma start_recording_active_noop_witness :
  let self := start_recording "20260101_120000" 0
                (init (default_settings "Recordings")) in
  is_recording self = true /\
  start_recording "20260101_120005" 5 self = self.
Proof.
  intros self.
  assert (H : is_recording self = true) by reflexivity.
  split; [exact H|].
  exact (proj1 (start_recording_active_noop "20260101_120005" 5 self H)).
Defined.

(** ** The file counter *)

Ltac split_ifs :=
  repeat match goal with
         | |- context [if ?c then _ else _] => destruct c eqn:?; simpl
         | |- context [match ?c with _ => _ end] => destruct c eqn:?; simpl
         end.

Lemma input_callback_counter (indata : block) (self : recorder) :
  counter_var (input_callback indata self) = counter_var self.
Proof. unfold input_callback, update_levels; simpl; split_ifs; congruence. Qed.

Lemma output_callback_counter (frames : nat) (self : recorder) :
  counter_var (fst (output_callback frames self)) = counter_var self.
Proof. unfold output_callback; destruct (monitor_queue self); reflexivity. Qed.

Lemma recording_thread_iter_counter
  (now : R) (self : recorder) (t : thread_locals) :
  counter_var (fst (fst (recording_thread_iter now self t))) = counter_var self.
Proof. unfold recording_thread_iter; simpl; split_ifs; reflexivity. Qed.

Lemma stop_recording_counter (self : recorder) :
  counter_var (stop_recording self) = counter_var self.
Proof. unfold stop_recording; destruct (is_recording self); reflexivity. Qed.

Lemma save_recording_counter (write_raises : bool) (self : recorder) :
  counter_var (save_recording write_raises self) = counter_var self.
Proof. unfold save_recording; split_ifs; reflexivity. Qed.

Lemma step_counter (s : system) (ev : event) :
  is_start ev = false -> counter_var (app (step s ev)) = counter_var (app s).
Proof.
  destruct ev; simpl; intros H; try discriminate.
  - apply input_callback_counter.
  - apply output_callback_counter.
  - destruct (status s); try reflexivity.
    pose proof (recording_thread_iter_counter now (app s) (locals s)) as Hc.
    destruct (recording_thread_iter now (app s) (locals s)) as [[a t] st].
    exact Hc.
  - apply stop_recording_counter.
  - apply save_recording_counter.
Qed.

Lemma step_counter_le (s : system) (ev : event) :
  (counter_var (app s) <= counter_var (app (step s ev)))%Z.
Proof.
  destruct (is_start ev) eqn:He.
  - destruct ev; try discriminate; simpl.
    destruct (is_recording (app s)) eqn:Hr; [lia|].
    unfold start_recording; rewrite Hr; simpl; lia.
  - rewrite step_counter by assumption; lia.
Qed.

Lemma run_counter (evs : list event) (s : system) :
  forallb (fun ev => negb (is_start ev)) evs = true ->
  counter_var (app (run evs s)) = counter_var (app s).
Proof.
  unfold run; revert s; induction evs as [|ev evs IH]; intros s H; simpl.
  - reflexivity.
  - simpl in H; apply andb_prop in H as [Hev Hevs].
    rewrite IH by assumption.
    apply step_counter; now destruct (is_start ev).
Qed.

Lemma run_counter_le (evs : list event) (s : system) :
  (counter_var (app s) <= counter_var (app (run evs s)))%Z.
Proof.
  unfold run; revert s; induction evs as [|ev evs IH]; intros s; simpl.
  - lia.
  - pose proof (step_counter_le s ev); pose proof (IH (step s ev)); lia.
Qed.

Lemma format_04d_four_digits (n : Z) :
  (0 <= n <= 9999)%Z -> format_04d n = four_digits n.
Proof.
  intros Hn.
  assert (H : forallb (fun k => String.eqb (format_04d (Z.of_nat k))
                                           (four_digits (Z.of_nat k)))
                      (seq 0 (Z.to_nat 10000)) = true) by (vm_compute; reflexivity).
  rewrite forallb_forall in H.
  specialize (H (Z.to_nat n)).
  rewrite Z2Nat.id in H by lia.
  apply String.eqb_eq, H, in_seq; lia.
Qed.

(** C10: a start made while no session is active uses the current counter,
    written with [04d] (four digits with leading zeros for 0..9999), in the
    new filename and leaves the counter one higher; whatever happens
    afterwards - audio turns, stop, and a save that succeeds, fails or
    finds nothing but silence - the counter never goes back, and it stays at
    that value until the next start. *)
Theorem start_recording_counter
  (timestamp : string) (now : R) (self : recorder) :
  is_recording self = false ->
  let self' := start_recording timestamp now self in
  counter_var self' = (counter_var self + 1)%Z /\
  current_filename self' =
    Some (os_path_join (output_folder (cfg self))
            (prefix_var (cfg self) ++ "_" ++ format_04d (counter_var self)
             ++ "_" ++ timestamp ++ ".wav")%string) /\
  ((0 <= counter_var self <= 9999)%Z ->
   format_04d (counter_var self) = four_digits (counter_var self)) /\
  (forall evs s, app s = self' ->
     (counter_var self + 1 <= counter_var (app (run evs s)))%Z /\
     (forallb (fun ev => negb (is_start ev)) evs = true ->
      counter_var (app (run evs s)) = (counter_var self + 1)%Z)).
Proof.
  intros Hrec self'.
  assert (Hc : counter_var self' = (counter_var self + 1)%Z).
  { unfold self', start_recording; now rewrite Hrec. }
  split; [exact Hc|].
  split; [unfold self', start_recording; now rewrite Hrec|].
  split; [apply format_04d_four_digits|].
  intros evs s Hs; split.
  - pose proof (run_counter_le evs s) as Hle.
    rewrite Hs, Hc in Hle; exact Hle.
  - intros Hev; rewrite run_counter by assumption.
    now rewrite Hs.
Qed.

Lemma start_recording_counter_witness :
  let self := init (default_settings "Recordings") in
  let self' := start_recording "20260101_120000" 0 self in
  is_recording self = false /\
  counter_var self' = 2%Z /\
  current_filename self' =
    Some (os_path_join "Recordings" "Recording_0001_20260101_120000.wav") /\
  counter_var
    (app (run [EvInput [(0, 0)]; EvThread 1; EvStop; EvSave true]
              {| app := self'; locals := recording_thread_enter self';
                 status := Looping |})) = 2%Z.
Proof.
  intros self self'.
  assert (H : is_recording self = false) by reflexivity.
  destruct (start_recording_counter "20260101_120000" 0 self H)
    as (Hc & Hf & _ & Hrun).
  split; [exact H | split; [exact Hc | split; [exact Hf |]]].
  exact (proj2 (Hrun [EvInput [(0, 0)]; EvThread 1; EvStop; EvSave true]
                  {| app := self'; locals := recording_thread_enter self';
                     status := Looping |} eq_refl) eq_refl).
Defined.

(** ** The recording queue *)

Lemma input_callback_is_recording (indata : block) (self : recorder) :
  is_recording (input_callback indata self) = is_recording self.
Proof. unfold input_callback, update_levels; simpl; split_ifs; congruence. Qed.

Lemma input_callback_recorded_frames (indata : block) (self : recorder) :
  recorded_frames (input_callback indata self) = recorded_frames self.
Proof. unfold input_callback, update_levels; simpl; split_ifs; congruence. Qed.

(** During a session the callback appends the block to the queue, whatever
    the queue already holds. *)
Lemma input_callback_audio_queue (indata : block) (self : recorder) :
  is_recording self = true ->
  audio_queue (input_callback indata self) = audio_queue self ++ [indata].
Proof.
  intros Hrec; unfold input_callback, update_levels; simpl.
  rewrite Hrec; simpl.
  destruct (is_armed self); simpl; rewrite Hrec, andb_false_r; reflexivity.
Qed.

Lemma input_callback_captured (indata : block) (self : recorder) :
  is_recording self = true ->
  captured (input_callback indata self) = captured self ++ [indata].
Proof.
  intros Hrec; unfold captured.
  rewrite input_callback_recorded_frames, input_callback_audio_queue by assumption.
  now rewrite app_assoc.
Qed.

Lemma output_callback_session (frames : nat) (self : recorder) :
  is_recording (fst (output_callback frames self)) = is_recording self /\
  captured (fst (output_callback frames self)) = captured self.
Proof. unfold output_callback; destruct (monitor_queue self); now split. Qed.

(** The recording thread moves the oldest waiting block to the end of the
    collected ones, or leaves both alone. *)
Lemma recording_thread_iter_session
  (now : R) (self : recorder) (t : thread_locals) :
  is_recording (fst (fst (recording_thread_iter now self t))) = is_recording self /\
  captured (fst (fst (recording_thread_iter now self t))) = captured self.
Proof.
  unfold recording_thread_iter, captured.
  destruct (is_recording self) eqn:Hrec; simpl; [|now rewrite Hrec].
  destruct (audio_queue self) as [|data rest] eqn:Hq; simpl;
    [now rewrite Hrec, Hq|].
  assert (H : (recorded_frames self ++ [data]) ++ rest =
              recorded_frames self ++ data :: rest)
    by (now rewrite <- app_assoc).
  split_ifs; now split.
Qed.

Lemma step_session (s : system) (ev : event) :
  audio_turn ev = true ->
  is_recording (app s) = true ->
  is_recording (app (step s ev)) = true /\
  captured (app (step s ev)) = captured (app s) ++ inputs [ev].
Proof.
  intros Hev Hrec; destruct ev; try discriminate; simpl.
  - rewrite input_callback_is_recording, input_callback_captured by assumption.
    now split.
  - destruct (output_callback_session frames (app s)) as [H1 H2].
    rewrite H1, H2, app_nil_r; now split.
  - rewrite app_nil_r.
    destruct (status s); try now split.
    destruct (recording_thread_iter_session now (app s) (locals s)) as [H1 H2].
    destruct (recording_thread_iter now (app s) (locals s)) as [[a t] st].
    simpl in *; rewrite H1, H2; now split.
Qed.

Lemma inputs_cons (ev : event) (evs : list event) :
  inputs (ev :: evs) = inputs [ev] ++ inputs evs.
Proof. unfold inputs; simpl; now rewrite app_nil_r. Qed.

Lemma run_session (evs : list event) (s : system) :
  is_recording (app s) = true ->
  forallb audio_turn evs = true ->
  is_recording (app (run evs s)) = true /\
  captured (app (run evs s)) = captured (app s) ++ inputs evs.
Proof.
  unfold run; revert s; induction evs as [|ev evs IH]; intros s Hrec Hevs.
  - simpl; rewrite app_nil_r; now split.
  - simpl in Hevs; apply andb_prop in Hevs as [Hev Hevs].
    destruct (step_session s ev Hev Hrec) as [H1 H2].
    destruct (IH (step s ev) H1 Hevs) as [H3 H4].
    simpl fold_left; split; [exact H3|].
    rewrite H4, H2, (inputs_cons ev evs).
    symmetry; apply app_assoc.
Qed.

(** C2: the recording queue never drops a block.  It is created without a
    capacity, so it never fills up and no overflow can arise.  Throughout an
    active session, and for every interleaving of the audio callbacks with
    the recording thread, the blocks collected so far followed by the blocks
    still queued are exactly the blocks delivered, in order; the session
    stays active, and a further block is appended whatever the length of the
    queue. *)
Theorem recording_queue_keeps_every_block (evs : list event) (s : system) :
  is_recording (app s) = true ->
  forallb audio_turn evs = true ->
  captured (app (run evs s)) = captured (app s) ++ inputs evs /\
  is_recording (app (run evs s)) = true /\
  forall indata,
    audio_queue (input_callback indata (app (run evs s))) =
    audio_queue (app (run evs s)) ++ [indata].
Proof.
  intros Hrec Hevs.
  destruct (run_session evs s Hrec Hevs) as [H1 H2].
  split; [exact H2 | split; [exact H1 |]].
  intros indata; now apply input_callback_audio_queue.
Qed.

Lemma recording_queue_keeps_every_block_witness :
  let self := start_recording "20260101_120000" 0
                (init (default_settings "Recordings")) in
  let s := {| app := self; locals := recording_thread_enter self;
              status := Looping |} in
  let evs := [EvInput [(1, 1)]; EvInput [(2, 2)]; EvThread 1; EvInput [(3, 3)]] in
  is_recording (app s) = true /\
  forallb audio_turn evs = true /\
  captured (app (run evs s)) = [[(1, 1)]; [(2, 2)]; [(3, 3)]].
Proof.
  intros self s evs.
  assert (H1 : is_recording (app s) = true) by reflexivity.
  assert (H2 : forallb audio_turn evs = true) by reflexivity.
  split; [exact H1 | split; [exact H2 |]].
  exact (proj1 (recording_queue_keeps_every_block evs s H1 H2)).
Defined.

(** ** Automatic stop *)

Lemma input_callback_active (indata : block) (self : recorder) :
  is_recording self = true ->
  input_callback indata self =
  let self1 :=
    set_audio_queue (put (audio_queue self) indata)
      (set_levels (calculate_db (column0 indata))
                  (calculate_db (column1 indata)) self) in
  if is_armed self
  then set_monitor_queue (put (monitor_queue self) indata) self1
  else self1.
Proof.
  intros Hrec; unfold input_callback, update_levels; simpl.
  rewrite Hrec; simpl.
  destruct (is_armed self); simpl; rewrite Hrec, andb_false_r; reflexivity.
Qed.

Lemma py_int_floor (x : R) : 0 <= x -> IZR (py_int x) <= x < IZR (py_int x) + 1.
Proof.
  intros Hx; unfold py_int.
  destruct (Rle_dec 0 x) as [_ | Hn]; [|contradiction].
  pose proof (base_Int_part x); lra.
Qed.


Lemma block_level_zero : block_level [(0, 0)] = -100.
Proof.
  unfold block_level; apply frame_level_zero_rows.
  intros r [<- | []]; reflexivity.
Qed.

Lemma leading_below_snoc (th : R) (k : Z) (l : list R) (x : R) :
  leading_below th k (l ++ [x]) =
  leading_below th (if Rlt_dec x th then (k + 1)%Z else 0%Z) l.
Proof.
  induction l as [|a l IH]; simpl; [reflexivity|].
  now rewrite IH.
Qed.

Lemma trailing_below_cons (th : R) (k : Z) (x : R) (l : list R) :
  trailing_below th k (x :: l) =
  trailing_below th (if Rlt_dec x th then (k + 1)%Z else 0%Z) l.
Proof. unfold trailing_below; simpl rev; apply leading_below_snoc. Qed.




Lemma stop_due_dec (c : settings) (needed count : Z) (started : R)
  (earlier : list (R * R)) (o : R * R) :
  stop_due c needed count started earlier o \/
  ~ stop_due c needed count started earlier o.
Proof.
  unfold stop_due.
  destruct (Rlt_dec (fst o) (silence_threshold_db c));
    destruct (Z_le_dec needed
                (trailing_below (silence_threshold_db c) count
                   (map fst earlier ++ [fst o])));
    destruct (Rge_dec (snd o - started) (min_recording_duration c));
    tauto.
Qed.

(** An entry seen after [o] counts from where [o] left the counter. *)
Lemma stop_due_shift (c : settings) (needed count : Z) (started : R)
  (o : R * R) (earlier : list (R * R)) (o' : R * R) :
  stop_due c needed count started (o :: earlier) o' <->
  stop_due c needed
    (if Rlt_dec (fst o) (silence_threshold_db c) then (count + 1)%Z else 0%Z)
    started earlier o'.
Proof.
  unfold stop_due; simpl map; rewrite <- app_comm_cons.
  now rewrite trailing_below_cons.
Qed.

Lemma step_input_active (s : system) (started : R) (b : block) :
  session_active started s ->
  let s' := step s (EvInput b) in
  session_active started s' /\
  cfg (app s') = cfg (app s) /\
  locals s' = locals s /\
  after_calls (app s') = after_calls (app s) /\
  audio_queue (app s') = audio_queue (app s) ++ [b] /\
  meter (app s') = block_level b.
Proof.
  intros (Hrec & Hauto & Hst & Hloop); cbn [step app locals status].
  unfold session_active; cbn [app status].
  rewrite input_callback_active by assumption.
  unfold meter, block_level, frame_level.
  destruct (is_armed (app s)); now repeat split.
Qed.

Lemma step_output_active (s : system) (started : R) (frames : nat) :
  session_active started s ->
  let s' := step s (EvOutput frames) in
  session_active started s' /\
  cfg (app s') = cfg (app s) /\
  locals s' = locals s /\
  after_calls (app s') = after_calls (app s) /\
  audio_queue (app s') = audio_queue (app s) /\
  meter (app s') = meter (app s).
Proof.
  intros (Hrec & Hauto & Hst & Hloop); cbn [step app locals status].
  unfold session_active, output_callback; cbn [app status].
  destruct (monitor_queue (app s)); now repeat split.
Qed.

(** A pass of the thread that finds the queue empty changes nothing. *)
Lemma step_thread_idle (s : system) (started now : R) :
  session_active started s -> audio_queue (app s) = [] ->
  step s (EvThread now) = s.
Proof.
  intros (Hrec & Hauto & Hst & Hloop) Hq; cbn [step].
  rewrite Hloop; unfold recording_thread_iter.
  rewrite Hrec, Hq; cbn.
  destruct s; cbn in *; now subst.
Qed.

(** A pass of the thread that finds a block waiting. *)
Lemma step_thread_collect
  (s : system) (started now : R) (b : block) (rest : list block) :
  session_active started s ->
  audio_queue (app s) = b :: rest ->
  let s' := step s (EvThread now) in
  let c := cfg (app s) in
  let due := stop_due c (silence_frame_threshold (locals s))
               (silence_frames (locals s)) started [] (meter (app s), now) in
  is_recording (app s') = true /\
  cfg (app s') = c /\
  recording_start_time (app s') = Some started /\
  audio_queue (app s') = rest /\
  meter (app s') = meter (app s) /\
  silence_frame_threshold (locals s') = silence_frame_threshold (locals s) /\
  silence_frames (locals s') =
    (if Rlt_dec (meter (app s)) (silence_threshold_db c)
     then silence_frames (locals s) + 1 else 0)%Z /\
  (due -> status s' = Exited /\
          after_calls (app s') = after_calls (app s) ++ [CallStopRecording]) /\
  (~ due -> status s' = Looping /\ after_calls (app s') = after_calls (app s)).
Proof.
  intros (Hrec & Hauto & Hst & Hloop) Hq s' c due.
  subst s' due c; cbn [step].
  rewrite Hloop; unfold recording_thread_iter, stop_due, trailing_below, meter.
  rewrite Hrec, Hq; simpl; rewrite Hauto, Hst; simpl.
  destruct (Rlt_dec (Rmax (current_level_l (app s)) (current_level_r (app s)))
                    (silence_threshold_db (cfg (app s)))) as [Hlt | Hge].
  - destruct (Z.leb_spec (silence_frame_threshold (locals s))
                         (silence_frames (locals s) + 1)) as [Hle | Hgt].
    + destruct (Rge_dec (now - started)
                        (min_recording_duration (cfg (app s)))) as [Hd | Hd];
        simpl; repeat split; try reflexivity; try assumption; tauto.
    + simpl; repeat split; try reflexivity; try assumption; try tauto;
        match goal with Hdue : _ /\ _ /\ _ |- _ => destruct Hdue as (_ & ? & _) end;
        lia.
  - simpl; repeat split; try reflexivity; try assumption; tauto.
Qed.

(** Once the thread has left its loop, the audio turns of the session
    request nothing more. *)
Lemma run_exited (evs : list event) (s : system) :
  is_recording (app s) = true ->
  status s <> Looping ->
  forallb audio_turn evs = true ->
  status (run evs s) = status s /\
  after_calls (app (run evs s)) = after_calls (app s).
Proof.
  unfold run; revert s; induction evs as [|ev evs IH]; intros s Hrec Hst Hevs.
  - now split.
  - simpl in Hevs; apply andb_prop in Hevs as [Hev Hevs].
    assert (Hstep : is_recording (app (step s ev)) = true /\
                    status (step s ev) = status s /\
                    after_calls (app (step s ev)) = after_calls (app s)).
    { destruct ev; try discriminate; cbn [step app status].
      - rewrite input_callback_active by assumption.
        destruct (is_armed (app s)); now repeat split.
      - unfold output_callback; destruct (monitor_queue (app s)); now repeat split.
      - destruct (status s) eqn:Hs; try congruence; now repeat split. }
    destruct Hstep as (H1 & H2 & H3).
    destruct (IH (step s ev) H1) as [H4 H5]; [congruence | assumption |].
    cbn [fold_left]; split; congruence.
Qed.

Lemma run_cons (ev : event) (evs : list event) (s : system) :
  run (ev :: evs) s = run evs (step s ev).
Proof. reflexivity. Qed.

(** What the thread does over any interleaving of the audio turns of a session
    is decided by the entries it collects: it asks for the stop at the first
    entry that is due, and until then its counter is the run of readings below
    the threshold that ends at the last entry collected. *)
Lemma run_auto_stop (started : R) (evs : list event) :
  forall s : system,
  session_active started s ->
  forallb audio_turn evs = true ->
  ((exists pre o post,
       observations evs s = pre ++ o :: post /\
       stop_due (cfg (app s)) (silence_frame_threshold (locals s))
         (silence_frames (locals s)) started pre o) ->
   status (run evs s) = Exited /\
   after_calls (app (run evs s)) = after_calls (app s) ++ [CallStopRecording]) /\
  ((forall pre o post,
       observations evs s = pre ++ o :: post ->
       ~ stop_due (cfg (app s)) (silence_frame_threshold (locals s))
           (silence_frames (locals s)) started pre o) ->
   status (run evs s) = Looping /\
   after_calls (app (run evs s)) = after_calls (app s) /\
   silence_frames (locals (run evs s)) =
     trailing_below (silence_threshold_db (cfg (app s)))
       (silence_frames (locals s)) (map fst (observations evs s))).
Proof.
  induction evs as [|ev evs IH]; intros s Hact Hevs.
  - split.
    + intros (pre & o & post & Hobs & _).
      exfalso; exact (app_cons_not_nil pre post o Hobs).
    + intros _; destruct Hact as (_ & _ & _ & Hloop).
      now repeat split.
  - simpl in Hevs; apply andb_prop in Hevs as [Hev Hevs].
    rewrite run_cons.
    destruct ev as [b | frames | now | | | ]; try discriminate.
    + destruct (step_input_active s started b Hact)
        as (Hact' & Hc & Hl & Hcalls & Hq & Hm).
      assert (Hobs : observations (EvInput b :: evs) s =
                     observations evs (step s (EvInput b))).
      { unfold observations; cbn [observe].
        now rewrite Hq, Hm, length_app, Nat.add_1_r. }
      rewrite Hobs, <- Hc, <- Hl, <- Hcalls.
      exact (IH _ Hact' Hevs).
    + destruct (step_output_active s started frames Hact)
        as (Hact' & Hc & Hl & Hcalls & Hq & Hm).
      assert (Hobs : observations (EvOutput frames :: evs) s =
                     observations evs (step s (EvOutput frames))).
      { unfold observations; cbn [observe]. now rewrite Hq, Hm. }
      rewrite Hobs, <- Hc, <- Hl, <- Hcalls.
      exact (IH _ Hact' Hevs).
    + destruct (audio_queue (app s)) as [|b rest] eqn:Hq.
      * rewrite (step_thread_idle s started now Hact Hq).
        assert (Hobs : observations (EvThread now :: evs) s =
                       observations evs s).
        { unfold observations; rewrite Hq; reflexivity. }
        rewrite Hobs; exact (IH _ Hact Hevs).
      * destruct (step_thread_collect s started now b rest Hact Hq)
          as (Hrec' & Hc & Hst' & Hq' & Hm & Hn & Hcount & Hdue & Hnot).
        set (s' := step s (EvThread now)) in *.
        set (o0 := (meter (app s), now)) in *.
        assert (Hobs : observations (EvThread now :: evs) s =
                       o0 :: observations evs s').
        { unfold observations; rewrite Hq, Hq', Hm; reflexivity. }
        rewrite Hobs.
        destruct (stop_due_dec (cfg (app s)) (silence_frame_threshold (locals s))
                    (silence_frames (locals s)) started [] o0) as [Hd | Hd].
        -- destruct (Hdue Hd) as [Hex Hstop].
           destruct (run_exited evs s' Hrec') as [H1 H2];
             [congruence | assumption |].
           split.
           ++ intros _; split; congruence.
           ++ intros Hnone; exfalso.
              exact (Hnone [] o0 (observations evs s') eq_refl Hd).
        -- destruct (Hnot Hd) as [Hloop' Hcalls].
           assert (Hact' : session_active started s').
           { destruct Hact as (_ & Hauto & _ & _).
             unfold session_active; rewrite Hc; now repeat split. }
           destruct (IH s' Hact' Hevs) as [IH1 IH2].
           rewrite Hc, Hn, Hcount, Hcalls in IH1, IH2.
           split.
           ++ intros (pre & o & post & Heq & Hstop).
              apply IH1.
              destruct pre as [|p pre].
              ** injection Heq as Ho _; subst o; contradiction.
              ** injection Heq as Hp Heq; subst p.
                 exists pre, o, post; split; [exact Heq|].
                 now apply stop_due_shift in Hstop.
           ++ intros Hnone.
              destruct IH2 as (H1 & H2 & H3).
              { intros pre o post Heq Hstop.
                apply (Hnone (o0 :: pre) o post).
                - now rewrite Heq.
                - now apply stop_due_shift. }
              repeat split; [exact H1 | exact H2 |].
              rewrite H3; cbn [map]; now rewrite trailing_below_cons.
Qed.


Lemma block_level_one : block_level [(1, 1)] = 0.
Proof.
  assert (Hc : calculate_db [1] = 0).
  { rewrite calculate_db_rms_pos; rewrite ?rms_singleton by lra;
      [unfold np_log10; rewrite ln_1; lra | discriminate | lra]. }
  unfold block_level, frame_level; cbn [column0 column1 map fst snd].
  rewrite Hc; unfold Rmax; destruct (Rle_dec 0 0); reflexivity.
Qed.





(** * Further properties *)

(** ** Level meter: full scale *)

Lemma np_sum_square_nonneg (l : list R) : 0 <= np_sum (np_square l).
Proof.
  induction l as [|x l IH]; simpl; [lra|].
  pose proof (Rle_0_sqr x) as Hx; unfold Rsqr in Hx; lra.
Qed.

Lemma INR_length_pos {A : Type} (l : list A) : l <> [] -> 0 < INR (length l).
Proof.
  intros H; destruct l as [|x l]; [congruence|].
  apply lt_0_INR; simpl; lia.
Qed.

Lemma np_mean_square_nonneg (l : list R) : 0 <= np_mean (np_square l).
Proof.
  destruct l as [|x l].
  - unfold np_mean; simpl; lra.
  - unfold np_mean.
    apply Rmult_le_pos; [apply np_sum_square_nonneg|].
    left; apply Rinv_0_lt_compat.
    unfold np_square; rewrite length_map; apply INR_length_pos; discriminate.
Qed.

Lemma np_sum_square_le_length (l : list R) :
  (forall x, In x l -> -1 <= x <= 1) ->
  np_sum (np_square l) <= INR (length l).
Proof.
  unfold np_square, np_sum.
  induction l as [|x l IH]; intros H.
  - simpl; lra.
  - cbn [map fold_right length]; rewrite S_INR.
    specialize (IH (fun y Hy => H y (or_intror Hy))).
    pose proof (H x (or_introl eq_refl)) as Hx.
    nra.
Qed.

(** X3: Samples within full scale never read above 0 dB. *)
Theorem calculate_db_full_scale (b : list R) :
  (forall x, In x b -> -1 <= x <= 1) -> calculate_db b <= 0.
Proof.
  intros H.
  destruct b as [|y b']; [rewrite calculate_db_nil; lra|].
  set (b := y :: b') in *.
  assert (Hb : b <> []) by discriminate.
  destruct (rms_nonneg b) as [Hpos | Hzero].
  - rewrite calculate_db_rms_pos by assumption.
    assert (Hle : rms b <= 1).
    { unfold rms; rewrite <- sqrt_1.
      apply sqrt_le_1; [apply np_mean_square_nonneg | lra |].
      unfold np_mean.
      assert (Hn : 0 < INR (length (np_square b)))
        by (unfold np_square; rewrite length_map; now apply INR_length_pos).
      apply (Rmult_le_reg_r (INR (length (np_square b)))); [exact Hn|].
      unfold Rdiv; rewrite Rmult_assoc, Rinv_l, Rmult_1_r, Rmult_1_l by lra.
      unfold np_square at 2; rewrite length_map.
      now apply np_sum_square_le_length. }
    assert (Hln : ln (rms b) <= 0).
    { rewrite <- ln_1.
      destruct Hle as [Hlt | Heq];
        [left; now apply ln_increasing | right; now rewrite Heq]. }
    unfold np_log10; pose proof ln10_pos as H10.
    assert (Hq : ln (rms b) / ln 10 <= 0).
    { unfold Rdiv.
      replace 0 with (0 * / ln 10) by ring.
      apply Rmult_le_compat_r; [left; now apply Rinv_0_lt_compat | exact Hln]. }
    lra.
  - rewrite calculate_db_rms_zero by (now symmetry); lra.
Qed.

Lemma calculate_db_full_scale_witness :
  (forall x, In x [1; -1] -> -1 <= x <= 1) /\ calculate_db [1; -1] <= 0.
Proof.
  assert (H : forall x, In x [1; -1] -> -1 <= x <= 1).
  { intros x [<- | [<- | []]]; lra. }
  split; [exact H | exact (calculate_db_full_scale [1; -1] H)].
Defined.

(** ** Silence trimmer: what is kept *)

Lemma scan_forward_min (th : R) (levels : list R) (i d j : nat) :
  (j < length levels)%nat -> nth j levels 0 > th ->
  (scan_forward th levels i d <= i + j)%nat.
Proof.
  revert i j; induction levels as [|x rest IH]; intros i j Hj Hl; simpl in *.
  - lia.
  - destruct (Rgt_dec x th) as [_ | Hx]; [lia|].
    destruct j as [|j]; [contradiction|].
    specialize (IH (S i) j ltac:(lia) Hl); lia.
Qed.

Lemma loud_frame_kept (self : trim_settings) (levels : list R) (n j : nat) :
  length levels = n -> (j < n)%nat ->
  nth j levels 0 > trim_threshold_db self ->
  (start_frame self levels <= j < end_frame self levels n)%nat.
Proof.
  intros Hlen Hj Hl; split.
  - unfold start_frame; destruct (trim_silence_start self); [|lia].
    apply (scan_forward_min _ levels 0 0 j); [lia | assumption].
  - destruct (end_frame_spec self levels n) as [(i & Hi & He & _ & Hq) | [He _]];
      rewrite He; [|assumption].
    destruct (Nat.lt_ge_cases i j) as [Hlt | Hge]; [|lia].
    exfalso; apply (Hq j); [lia | assumption].
Qed.

(** X4: A buffer of at least one frame comes back as a run of whole frames cut
    out of it: between one and [len // 2048] frames, starting at frame 0
    when start trimming is off and ending with the last whole frame when end
    trimming is off.  The samples after the last whole frame are dropped
    whatever the flags. *)
Theorem trim_silence_whole_frames (self : trim_settings) (audio_data : ndarray) :
  (frame_length <= len audio_data)%nat ->
  exists s e : nat,
    (s < e <= len audio_data / frame_length)%nat /\
    trim_silence self audio_data =
      arr_slice (s * frame_length) (e * frame_length) audio_data /\
    len (trim_silence self audio_data) = ((e - s) * frame_length)%nat /\
    (trim_silence_start self = false -> s = 0%nat) /\
    (trim_silence_end self = false -> e = (len audio_data / frame_length)%nat).
Proof.
  intros Hlen.
  pose proof frame_length_pos as HF.
  set (n := (len audio_data / frame_length)%nat).
  assert (Hn : (0 < n)%nat).
  { unfold n; apply Nat.div_str_pos; lia. }
  set (levels := frame_levels audio_data n).
  pose proof (frames_ordered self levels n (frame_levels_length _ _) Hn) as [Hlt Hle].
  pose proof (num_frames_bound audio_data) as Hb; fold n in Hb.
  exists (start_frame self levels), (end_frame self levels n).
  rewrite (trim_silence_frames self audio_data Hn); fold n; fold levels.
  split; [lia | split; [reflexivity | split; [| split]]].
  - rewrite len_arr_slice; nia.
  - intros Hoff; now apply start_frame_quiet; left.
  - intros Hoff; now apply end_frame_quiet; left.
Qed.

Lemma trim_silence_whole_frames_witness :
  let self := {| trim_silence_start := false; trim_silence_end := false;
                 trim_threshold_db := -50 |} in
  let audio_data := Arr2 (repeat (1, 1) frame_length ++ [(1, 1)]) in
  (frame_length <= len audio_data)%nat /\
  exists s e : nat,
    trim_silence self audio_data =
      arr_slice (s * frame_length) (e * frame_length) audio_data /\
    len (trim_silence self audio_data) = ((e - s) * frame_length)%nat.
Proof.
  intros self audio_data.
  assert (H : (frame_length <= len audio_data)%nat).
  { unfold audio_data; cbn [len]; rewrite length_app, repeat_length; lia. }
  split; [exact H|].
  destruct (trim_silence_whole_frames self audio_data H)
    as (s & e & _ & Heq & Hl & _).
  exists s, e; split; [exact Heq | exact Hl].
Defined.

(** X5: No frame above the threshold is ever cut: every loud frame of the
    buffer lies inside the range that is returned. *)
Theorem trim_silence_keeps_loud_frames
  (self : trim_settings) (audio_data : ndarray) :
  let n := (len audio_data / frame_length)%nat in
  (frame_length <= len audio_data)%nat ->
  exists s e : nat,
    trim_silence self audio_data =
      arr_slice (s * frame_length) (e * frame_length) audio_data /\
    forall j, (j < n)%nat ->
      nth j (frame_levels audio_data n) 0 > trim_threshold_db self ->
      (s <= j < e)%nat.
Proof.
  intros n Hlen.
  pose proof frame_length_pos as HF.
  assert (Hn : (0 < n)%nat) by (unfold n; apply Nat.div_str_pos; lia).
  exists (start_frame self (frame_levels audio_data n)),
         (end_frame self (frame_levels audio_data n) n).
  split; [exact (trim_silence_frames self audio_data Hn)|].
  intros j Hj Hl.
  now apply loud_frame_kept; [apply frame_levels_length | |].
Qed.

Lemma trim_silence_keeps_loud_frames_witness :
  let self := {| trim_silence_start := true; trim_silence_end := true;
                 trim_threshold_db := -50 |} in
  let audio_data := Arr2 (repeat (1, 1) frame_length) in
  (frame_length <= len audio_data)%nat /\
  exists s e : nat,
    trim_silence self audio_data =
      arr_slice (s * frame_length) (e * frame_length) audio_data.
Proof.
  intros self audio_data.
  assert (H : (frame_length <= len audio_data)%nat).
  { unfold audio_data; cbn [len]; rewrite repeat_length; lia. }
  split; [exact H|].
  destruct (trim_silence_keeps_loud_frames self audio_data H) as (s & e & Heq & _).
  exists s, e; exact Heq.
Defined.

(** X6: With the matching flag on and at least one frame above the threshold,
    the result begins with a loud frame and ends with a loud frame: no quiet
    frame is left at a trimmed end. *)
Theorem trim_silence_ends_loud (self : trim_settings) (audio_data : ndarray) :
  let n := (len audio_data / frame_length)%nat in
  let trimmed := trim_silence self audio_data in
  let m := (len trimmed / frame_length)%nat in
  (exists j, (j < n)%nat /\
             nth j (frame_levels audio_data n) 0 > trim_threshold_db self) ->
  (trim_silence_start self = true ->
   nth 0 (frame_levels trimmed m) 0 > trim_threshold_db self) /\
  (trim_silence_end self = true ->
   nth (m - 1) (frame_levels trimmed m) 0 > trim_threshold_db self).
Proof.
  intros n trimmed m (j & Hj & Hl).
  pose proof frame_length_pos as HF.
  assert (Hn : (0 < n)%nat) by lia.
  set (levels := frame_levels audio_data n) in *.
  pose proof (frames_ordered self levels n (frame_levels_length _ _) Hn) as [Hlt Hle].
  pose proof (num_frames_bound audio_data) as Hb; fold n in Hb.
  set (s := start_frame self levels) in *.
  set (e := end_frame self levels n) in *.
  assert (Ht : trimmed = arr_slice (s * frame_length) (e * frame_length) audio_data)
    by exact (trim_silence_frames self audio_data Hn).
  assert (Hm : m = (e - s)%nat).
  { unfold m; rewrite Ht, len_arr_slice.
    replace (Nat.min (e * frame_length - s * frame_length)
                     (len audio_data - s * frame_length))
      with ((e - s) * frame_length)%nat by nia.
    apply Nat.div_mul; lia. }
  assert (Hnth : forall i, (s + i < e)%nat ->
            nth i (frame_levels trimmed m) 0 = nth (s + i) levels 0).
  { intros i Hi; rewrite Hm, Ht; unfold levels.
    apply frame_levels_slice; [lia | nia | lia]. }
  assert (Hlen : length levels = n) by apply frame_levels_length.
  split; intros Hflag.
  - rewrite Hnth by lia; rewrite Nat.add_0_r.
    destruct (start_frame_spec self levels) as [[_ H] | [_ [Hoff | Hq]]].
    + exact H.
    + congruence.
    + exfalso; apply (Hq j); [lia | assumption].
  - rewrite Hnth by lia.
    destruct (end_frame_spec self levels n) as [(i & Hi & He & H & _) | [_ [Hoff | Hq]]].
    + fold e in He.
      now replace (s + (m - 1))%nat with i by lia.
    + congruence.
    + exfalso; apply (Hq j); assumption.
Qed.

Lemma frame_level_ones :
  frame_level (Arr2 (repeat (1, 1) frame_length)) = 0.
Proof.
  pose proof frame_length_pos as HF.
  assert (Hone : forall rows : list (R * R),
            rows <> [] -> (forall r, In r rows -> r = (1, 1)) ->
            forall f : R * R -> R, f (1, 1) = 1 ->
            calculate_db (map f rows) = 0).
  { intros rows Hne Hall f Hf.
    assert (Hsum : np_sum (np_square (map f rows)) = INR (length rows)).
    { clear Hne; unfold np_square, np_sum.
      induction rows as [|r rows IH]; [reflexivity|].
      cbn [map fold_right length]; rewrite S_INR, IH
        by (intros r' Hr'; apply Hall; now right).
      rewrite (Hall r (or_introl eq_refl)), Hf; lra. }
    assert (Hrms : rms (map f rows) = 1).
    { unfold rms, np_mean; rewrite Hsum.
      unfold np_square; rewrite !length_map.
      pose proof (INR_length_pos rows Hne) as Hpos.
      replace (INR (length rows) / INR (length rows)) with 1 by (field; lra).
      apply sqrt_1. }
    rewrite calculate_db_rms_pos; [| destruct rows; [congruence | discriminate] | lra].
    rewrite Hrms; unfold np_log10; rewrite ln_1; lra. }
  assert (Hne : repeat (1, 1) frame_length <> [])
    by (destruct frame_length eqn:E; [lia | discriminate]).
  cbn [frame_level]; unfold column0, column1.
  rewrite !Hone; try assumption; try reflexivity;
    try (intros r Hr; now apply repeat_spec in Hr).
  apply Rmax_left; lra.
Qed.

Lemma trim_silence_ends_loud_witness :
  let self := {| trim_silence_start := true; trim_silence_end := true;
                 trim_threshold_db := -50 |} in
  let audio_data := Arr2 (repeat (1, 1) frame_length) in
  let trimmed := trim_silence self audio_data in
  nth 0 (frame_levels trimmed (len trimmed / frame_length)) 0 > -50.
Proof.
  intros self audio_data trimmed.
  pose proof frame_length_pos as HF.
  assert (Hlen : len audio_data = frame_length) by apply repeat_length.
  assert (Hn : (len audio_data / frame_length = 1)%nat)
    by (rewrite Hlen; apply Nat.div_same; lia).
  assert (Hex : exists j, (j < len audio_data / frame_length)%nat /\
                  nth j (frame_levels audio_data (len audio_data / frame_length)) 0
                  > trim_threshold_db self).
  { exists 0%nat; rewrite Hn; split; [lia|].
    rewrite frame_levels_nth by lia.
    rewrite Nat.mul_0_l, Nat.add_0_l, arr_slice_all by lia.
    unfold audio_data; rewrite frame_level_ones; cbn; lra. }
  exact (proj1 (trim_silence_ends_loud self audio_data Hex) eq_refl).
Defined.

(** ** Monitoring path *)

Lemma input_callback_cfg (indata : block) (self : recorder) :
  cfg (input_callback indata self) = cfg self.
Proof. unfold input_callback, update_levels; simpl; split_ifs; congruence. Qed.

Lemma input_callback_monitor_queue (indata : block) (self : recorder) :
  monitor_queue (input_callback indata self) =
  if is_armed self then monitor_queue self ++ [indata] else monitor_queue self.
Proof.
  unfold input_callback, update_levels; simpl.
  destruct (is_recording self) eqn:Hrec; simpl;
    destruct (is_armed self) eqn:Harm; simpl; rewrite ?Hrec, ?Harm; simpl;
    split_ifs; reflexivity.
Qed.

(** X7: While armed, every delivered block joins the end of the monitor queue and
    the playback callback plays the oldest one first; with nothing waiting,
    the block just delivered is played back with each of its samples
    multiplied by the monitor volume.  While not armed, the callback leaves
    the monitor queue alone. *)
Theorem monitor_passthrough (indata : block) (self : recorder) :
  (is_armed self = true ->
   monitor_queue (input_callback indata self) = monitor_queue self ++ [indata] /\
   (monitor_queue self = [] ->
    output_callback (length indata) (input_callback indata self) =
    (set_monitor_queue [] (input_callback indata self),
     map (fun row => (fst row * monitor_volume (cfg self),
                      snd row * monitor_volume (cfg self))) indata))) /\
  (is_armed self = false ->
   monitor_queue (input_callback indata self) = monitor_queue self).
Proof.
  split; intros Harm.
  - assert (Hq : monitor_queue (input_callback indata self)
                 = monitor_queue self ++ [indata])
      by (now rewrite input_callback_monitor_queue, Harm).
    split; [exact Hq|].
    intros Hempty; unfold output_callback.
    rewrite Hq, Hempty, input_callback_cfg, app_nil_l.
    unfold get_nowait; rewrite scale_length, Nat.ltb_irrefl; reflexivity.
  - now rewrite input_callback_monitor_queue, Harm.
Qed.

Lemma monitor_passthrough_witness :
  let self := {| cfg := default_settings "Recordings";
                 is_recording := false; is_armed := true;
                 audio_queue := []; monitor_queue := [];
                 recorded_frames := []; current_filename := None;
                 silence_start_time := None; recording_start_time := None;
                 in_sound_segment := false;
                 current_level_l := -100; current_level_r := -100;
                 counter_var := 1; after_calls := []; files := [] |} in
  is_armed self = true /\
  monitor_queue self = [] /\
  snd (output_callback 2 (input_callback [(1 / 2, 1); (1 / 4, - (1 / 2))] self)) =
  [(1 / 2 * (7 / 10), 1 * (7 / 10));
   (1 / 4 * (7 / 10), - (1 / 2) * (7 / 10))].
Proof.
  intros self.
  split; [reflexivity | split; [reflexivity|]].
  exact (f_equal snd
           (proj2 (proj1 (monitor_passthrough
                            [(1 / 2, 1); (1 / 4, - (1 / 2))] self) eq_refl)
              eq_refl)).
Defined.

Lemma output_callback_rows (frames : nat) (self : recorder) (row : R * R) :
  In row (snd (output_callback frames self)) ->
  row = (0, 0) \/
  exists data rest r,
    monitor_queue self = data :: rest /\ In r data /\
    row = (fst r * monitor_volume (cfg self), snd r * monitor_volume (cfg self)).
Proof.
  unfold output_callback.
  destruct (monitor_queue self) as [|data rest]; cbn [get_nowait snd].
  - intros H; left; now apply repeat_spec in H.
  - set (g := monitor_volume (cfg self)).
    assert (Hscaled : forall r', In r' (scale g data) ->
              exists r, In r data /\ r' = (fst r * g, snd r * g)).
    { intros r' Hr'; apply in_map_iff in Hr' as (r & <- & Hr); now exists r. }
    intros H.
    destruct (length (scale g data) <? frames)%nat.
    + apply in_app_or in H as [H | H].
      * right; destruct (Hscaled _ H) as (r & Hr & ->); now exists data, rest, r.
      * left; now apply repeat_spec in H.
    + destruct (frames <? length (scale g data))%nat.
      * assert (H' : In row (scale g data)).
        { rewrite <- (firstn_skipn frames (scale g data)).
          apply in_or_app; now left. }
        right; destruct (Hscaled _ H') as (r & Hr & ->); now exists data, rest, r.
      * right; destruct (Hscaled _ H) as (r & Hr & ->); now exists data, rest, r.
Qed.

(** X8: With a monitor volume between 0 and 1, playback never leaves full scale
    when the queued blocks are within it. *)
Theorem output_callback_within_full_scale (frames : nat) (self : recorder) :
  0 <= monitor_volume (cfg self) <= 1 ->
  (forall data row, In data (monitor_queue self) -> In row data ->
     -1 <= fst row <= 1 /\ -1 <= snd row <= 1) ->
  forall row, In row (snd (output_callback frames self)) ->
    -1 <= fst row <= 1 /\ -1 <= snd row <= 1.
Proof.
  intros Hg Hin row Hrow.
  destruct (output_callback_rows frames self row Hrow)
    as [-> | (data & rest & r & Hq & Hr & ->)].
  - cbn; lra.
  - assert (Hd : In data (monitor_queue self)) by (rewrite Hq; now left).
    destruct (Hin data r Hd Hr) as [Hl Hrr]; cbn [fst snd].
    split; nra.
Qed.

Lemma output_callback_within_full_scale_witness :
  let self := set_monitor_queue [[(1, -1)]] (init (default_settings "Recordings")) in
  let row := nth 0 (snd (output_callback 2 self)) (0, 0) in
  -1 <= fst row <= 1 /\ -1 <= snd row <= 1.
Proof.
  intros self row.
  apply (output_callback_within_full_scale 2 self).
  - cbn; lra.
  - intros data r [<- | []] [<- | []]; cbn; lra.
  - left; reflexivity.
Defined.

(** ** Automatic start *)

Lemma input_callback_idle (indata : block) (self : recorder) :
  is_recording self = false ->
  auto_mode (cfg self) = true ->
  let self' := input_callback indata self in
  let th := silence_threshold_db (cfg self) in
  is_recording self' = false /\
  cfg self' = cfg self /\
  in_sound_segment self' =
    (if Rgt_dec (block_level indata) th then true else false) /\
  after_calls self' =
    after_calls self ++
    (if Rgt_dec (block_level indata) th
     then if in_sound_segment self then [] else [CallStartRecording]
     else []).
Proof.
  intros Hrec Hauto; unfold input_callback, update_levels, block_level, frame_level.
  simpl; rewrite Hrec; simpl.
  destruct (is_armed self); simpl; rewrite Hrec, Hauto; simpl;
    (destruct (Rgt_dec (Rmax (calculate_db (column0 indata))
                             (calculate_db (column1 indata)))
                       (silence_threshold_db (cfg self)));
     [destruct (in_sound_segment self) eqn:Hseg|]);
    simpl; rewrite ?app_nil_r; repeat split; assumption.
Qed.

Lemma idle_inputs_after_calls (blocks : list block) (s : system) :
  is_recording (app s) = false ->
  auto_mode (cfg (app s)) = true ->
  let s' := run (map EvInput blocks) s in
  is_recording (app s') = false /\
  after_calls (app s') =
    after_calls (app s) ++
    repeat CallStartRecording
      (rising_edges (silence_threshold_db (cfg (app s)))
                    (in_sound_segment (app s)) blocks).
Proof.
  unfold run; revert s; induction blocks as [|b blocks IH]; intros s Hrec Hauto.
  - cbn; rewrite app_nil_r; now split.
  - destruct (input_callback_idle b (app s) Hrec Hauto) as (Hr & Hc & Hseg & Hcalls).
    cbn [map fold_left rising_edges].
    set (s1 := step s (EvInput b)).
    assert (Happ : app s1 = input_callback b (app s)) by reflexivity.
    destruct (IH s1) as [Hr' Hcalls'].
    { now rewrite Happ. }
    { now rewrite Happ, Hc. }
    split; [exact Hr'|].
    rewrite Hcalls', Happ, Hcalls, Hc, Hseg.
    destruct (Rgt_dec (block_level b) (silence_threshold_db (cfg (app s)))).
    + rewrite repeat_app, app_assoc.
      destruct (in_sound_segment (app s)); reflexivity.
    + now rewrite app_nil_r.
Qed.

(** X9: With auto mode on and no session active, the input callbacks request one
    start for each rise of the level above the silence threshold, and none
    while the level stays above it or stays at or below it. *)
Theorem auto_start_once_per_rise (blocks : list block) (s : system) :
  is_recording (app s) = false ->
  auto_mode (cfg (app s)) = true ->
  after_calls (app (run (map EvInput blocks) s)) =
    after_calls (app s) ++
    repeat CallStartRecording
      (rising_edges (silence_threshold_db (cfg (app s)))
                    (in_sound_segment (app s)) blocks).
Proof.
  intros Hrec Hauto; exact (proj2 (idle_inputs_after_calls blocks s Hrec Hauto)).
Qed.

Lemma rising_edges_loud (th : R) (seg : bool) (b : block) (rest : list block) :
  block_level b > th ->
  rising_edges th seg (b :: rest) =
  ((if seg then 0 else 1) + rising_edges th true rest)%nat.
Proof.
  intros H; cbn [rising_edges].
  destruct (Rgt_dec (block_level b) th); [reflexivity | contradiction].
Qed.

Lemma rising_edges_quiet (th : R) (seg : bool) (b : block) (rest : list block) :
  ~ block_level b > th ->
  rising_edges th seg (b :: rest) = rising_edges th false rest.
Proof.
  intros H; cbn [rising_edges].
  destruct (Rgt_dec (block_level b) th); [contradiction | reflexivity].
Qed.

(** Quiet, loud, loud, quiet, loud: the level rises twice. *)
Lemma rising_edges_two_rises :
  rising_edges (-40) false
    [[(0, 0)]; [(1, 1)]; [(1, 1)]; [(0, 0)]; [(1, 1)]] = 2%nat.
Proof.
  assert (Hq : ~ block_level [(0, 0)] > -40) by (rewrite block_level_zero; lra).
  assert (Hl : block_level [(1, 1)] > -40) by (rewrite block_level_one; lra).
  rewrite (rising_edges_quiet _ _ _ _ Hq), (rising_edges_loud _ _ _ _ Hl),
    (rising_edges_loud _ _ _ _ Hl), (rising_edges_quiet _ _ _ _ Hq),
    (rising_edges_loud _ _ _ _ Hl).
  reflexivity.
Qed.

Lemma auto_start_once_per_rise_witness :
  let c := {| sample_rate := 44100; auto_mode := true;
              silence_threshold_db := -40; silence_duration := 2;
              min_recording_duration := 1;
              trim := trim (default_settings "Recordings");
              monitor_volume := 7 / 10;
              output_folder := "Recordings"; prefix_var := "Recording" |} in
  let s := {| app := init c; locals := recording_thread_enter (init c);
              status := Exited |} in
  let blocks := [[(0, 0)]; [(1, 1)]; [(1, 1)]; [(0, 0)]; [(1, 1)]] in
  is_recording (app s) = false /\
  auto_mode (cfg (app s)) = true /\
  after_calls (app (run (map EvInput blocks) s)) =
  [CallStartRecording; CallStartRecording].
Proof.
  intros c s blocks.
  split; [reflexivity | split; [reflexivity|]].
  rewrite (auto_start_once_per_rise blocks s eq_refl eq_refl).
  change (silence_threshold_db (cfg (app s))) with (-40).
  change (in_sound_segment (app s)) with false.
  unfold blocks; rewrite rising_edges_two_rises; reflexivity.
Defined.

Lemma rising_edges_all_loud (th : R) (blocks : list block) :
  (forall b, In b blocks -> block_level b > th) ->
  rising_edges th true blocks = 0%nat.
Proof.
  induction blocks as [|b blocks IH]; intros H; [reflexivity|].
  cbn [rising_edges].
  destruct (Rgt_dec (block_level b) th) as [_ | Hn].
  - rewrite IH by (intros x Hx; apply H; now right); reflexivity.
  - exfalso; apply Hn, H; now left.
Qed.

(** ** What the audio turns leave alone during a session *)

Lemma recording_thread_iter_frame
  (now : R) (self : recorder) (t : thread_locals) :
  let self' := fst (fst (recording_thread_iter now self t)) in
  cfg self' = cfg self /\
  in_sound_segment self' = in_sound_segment self /\
  current_filename self' = current_filename self /\
  files self' = files self.
Proof.
  unfold recording_thread_iter; simpl; split_ifs; now repeat split.
Qed.

Lemma step_session_frame (s : system) (ev : event) :
  audio_turn ev = true ->
  is_recording (app s) = true ->
  cfg (app (step s ev)) = cfg (app s) /\
  in_sound_segment (app (step s ev)) = in_sound_segment (app s) /\
  current_filename (app (step s ev)) = current_filename (app s) /\
  files (app (step s ev)) = files (app s).
Proof.
  intros Hev Hrec; destruct ev; try discriminate; cbn [step app].
  - rewrite input_callback_active by assumption.
    destruct (is_armed (app s)); now repeat split.
  - unfold output_callback; destruct (monitor_queue (app s)); now repeat split.
  - destruct (status s); try now repeat split.
    pose proof (recording_thread_iter_frame now (app s) (locals s)) as H.
    destruct (recording_thread_iter now (app s) (locals s)) as [[a t] st].
    exact H.
Qed.

Lemma run_session_frame (evs : list event) (s : system) :
  forallb audio_turn evs = true ->
  is_recording (app s) = true ->
  cfg (app (run evs s)) = cfg (app s) /\
  in_sound_segment (app (run evs s)) = in_sound_segment (app s) /\
  current_filename (app (run evs s)) = current_filename (app s) /\
  files (app (run evs s)) = files (app s).
Proof.
  unfold run; revert s; induction evs as [|ev evs IH]; intros s Hevs Hrec.
  - now repeat split.
  - simpl in Hevs; apply andb_prop in Hevs as [Hev Hevs].
    destruct (step_session_frame s ev Hev Hrec) as (H1 & H2 & H3 & H4).
    destruct (step_session s ev Hev Hrec) as [Hrec' _].
    destruct (IH (step s ev) Hevs Hrec') as (H1' & H2' & H3' & H4').
    cbn [fold_left]; repeat split; congruence.
Qed.

Lemma run_app (evs1 evs2 : list event) (s : system) :
  run (evs1 ++ evs2) s = run evs2 (run evs1 s).
Proof. unfold run; apply fold_left_app. Qed.

(** X10: A session leaves [in_sound_segment] as it found it, so after a session
    that began with the flag set - as every automatic start sets it - blocks
    above the threshold request no new start, however many arrive: the level
    has to fall to the threshold or below once first. *)
Theorem no_restart_while_level_stays_up
  (evs : list event) (louds : list block) (s : system) :
  is_recording (app s) = true ->
  in_sound_segment (app s) = true ->
  auto_mode (cfg (app s)) = true ->
  forallb audio_turn evs = true ->
  (forall b, In b louds -> block_level b > silence_threshold_db (cfg (app s))) ->
  let s1 := run (evs ++ [EvStop]) s in
  is_recording (app s1) = false /\
  after_calls (app (run (map EvInput louds) s1)) = after_calls (app s1).
Proof.
  intros Hrec Hseg Hauto Hevs Hloud s1.
  destruct (run_session_frame evs s Hevs Hrec) as (Hc & Hs & _ & _).
  destruct (run_session evs s Hrec Hevs) as [Hrec1 _].
  assert (Happ : app s1 = set_is_recording false (app (run evs s))).
  { unfold s1; rewrite run_app; cbn [run fold_left step app].
    unfold stop_recording; now rewrite Hrec1. }
  assert (Hidle : is_recording (app s1) = false) by now rewrite Happ.
  assert (Hc1 : cfg (app s1) = cfg (app s)) by now rewrite Happ.
  assert (Hs1 : in_sound_segment (app s1) = true) by (rewrite Happ; cbn; congruence).
  split; [exact Hidle|].
  destruct (idle_inputs_after_calls louds s1 Hidle) as [_ Hcalls].
  { now rewrite Hc1. }
  rewrite Hcalls, Hc1, Hs1, rising_edges_all_loud by assumption.
  apply app_nil_r.
Qed.

Lemma stop_recording_after_calls (self : recorder) :
  after_calls (stop_recording self) = after_calls self.
Proof. unfold stop_recording; now destruct (is_recording self). Qed.

(** A session that hears one loud block and is then stopped by hand has
    requested nothing. *)
Lemma loud_session_requests_nothing :
  let c := {| sample_rate := 44100; auto_mode := true;
              silence_threshold_db := -40; silence_duration := 2;
              min_recording_duration := 1;
              trim := trim (default_settings "Recordings");
              monitor_volume := 7 / 10;
              output_folder := "Recordings"; prefix_var := "Recording" |} in
  let self := start_recording "20260101_120000" 0
                (set_in_sound_segment true (init c)) in
  let s := {| app := self; locals := recording_thread_enter self;
              status := Looping |} in
  after_calls (app (run ([EvInput [(1, 1)]; EvThread 1] ++ [EvStop]) s)) = [].
Proof.
  intros c self s.
  rewrite run_app.
  change (run [EvStop] (run [EvInput [(1, 1)]; EvThread 1] s))
    with (step (run [EvInput [(1, 1)]; EvThread 1] s) EvStop).
  cbn [step app]; rewrite stop_recording_after_calls.
  assert (Hact : session_active 0 s)
    by (split; [|split; [|split]]; reflexivity).
  destruct (run_auto_stop 0 [EvInput [(1, 1)]; EvThread 1] s Hact eq_refl)
    as [_ Hnone].
  destruct Hnone as (_ & Hcalls & _); [|exact Hcalls].
  intros pre o post Hobs (Hlt & _).
  change (observations [EvInput [(1, 1)]; EvThread 1] s)
    with [(block_level [(1, 1)], 1)] in Hobs.
  change (silence_threshold_db (cfg (app s))) with (-40) in Hlt.
  destruct pre as [|p pre].
  - injection Hobs as <- _; cbn [fst] in Hlt.
    rewrite block_level_one in Hlt; lra.
  - injection Hobs as _ Hobs; exact (app_cons_not_nil pre post o Hobs).
Qed.

Lemma no_restart_while_level_stays_up_witness :
  let c := {| sample_rate := 44100; auto_mode := true;
              silence_threshold_db := -40; silence_duration := 2;
              min_recording_duration := 1;
              trim := trim (default_settings "Recordings");
              monitor_volume := 7 / 10;
              output_folder := "Recordings"; prefix_var := "Recording" |} in
  let self := start_recording "20260101_120000" 0
                (set_in_sound_segment true (init c)) in
  let s := {| app := self; locals := recording_thread_enter self;
              status := Looping |} in
  let s1 := run ([EvInput [(1, 1)]; EvThread 1] ++ [EvStop]) s in
  block_level [(1, 1)] > silence_threshold_db (cfg (app s)) /\
  is_recording (app s1) = false /\
  after_calls (app (run (map EvInput [[(1, 1)]; [(1, 1)]]) s1)) = [].
Proof.
  intros c self s s1.
  assert (Hloud : block_level [(1, 1)] > silence_threshold_db (cfg (app s))).
  { rewrite block_level_one; cbn; lra. }
  split; [exact Hloud|].
  assert (Hall : forall b, In b [[(1, 1)]; [(1, 1)]] ->
                   block_level b > silence_threshold_db (cfg (app s))).
  { intros b [<- | [<- | []]]; exact Hloud. }
  destruct (no_restart_while_level_stays_up
              [EvInput [(1, 1)]; EvThread 1] [[(1, 1)]; [(1, 1)]] s
              eq_refl eq_refl eq_refl eq_refl Hall) as [Hidle Hcalls].
  split; [exact Hidle|].
  fold s1 in Hcalls; rewrite Hcalls.
  exact loud_session_requests_nothing.
Defined.

(** ** Manual sessions *)

Lemma recording_thread_iter_manual
  (now : R) (self : recorder) (t : thread_locals) :
  auto_mode (cfg self) = false ->
  is_recording self = true ->
  after_calls (fst (fst (recording_thread_iter now self t))) = after_calls self /\
  snd (recording_thread_iter now self t) = Looping.
Proof.
  intros Hauto Hrec; unfold recording_thread_iter.
  rewrite Hrec; cbn [negb].
  destruct (get_nowait (audio_queue self)) as [[data rest]|]; simpl;
    rewrite ?Hauto; now split.
Qed.

Lemma step_manual (s : system) (ev : event) :
  audio_turn ev = true ->
  is_recording (app s) = true ->
  auto_mode (cfg (app s)) = false ->
  status s = Looping ->
  after_calls (app (step s ev)) = after_calls (app s) /\
  status (step s ev) = Looping.
Proof.
  intros Hev Hrec Hauto Hloop; destruct ev; try discriminate; cbn [step app status].
  - rewrite input_callback_active by assumption.
    destruct (is_armed (app s)); now split.
  - unfold output_callback; destruct (monitor_queue (app s)); now split.
  - rewrite Hloop.
    pose proof (recording_thread_iter_manual now (app s) (locals s) Hauto Hrec) as H.
    destruct (recording_thread_iter now (app s) (locals s)) as [[a t] st].
    exact H.
Qed.

(** X11: With auto mode off, no interleaving of callbacks and recording thread
    ever requests a stop or ends the thread's loop: a manual session runs
    until [stop_recording] is called. *)
Theorem manual_session_never_stops_itself (evs : list event) (s : system) :
  is_recording (app s) = true ->
  auto_mode (cfg (app s)) = false ->
  status s = Looping ->
  forallb audio_turn evs = true ->
  after_calls (app (run evs s)) = after_calls (app s) /\
  status (run evs s) = Looping /\
  is_recording (app (run evs s)) = true.
Proof.
  unfold run; revert s; induction evs as [|ev evs IH]; intros s Hrec Hauto Hloop Hevs.
  - now repeat split.
  - simpl in Hevs; apply andb_prop in Hevs as [Hev Hevs].
    destruct (step_manual s ev Hev Hrec Hauto Hloop) as [Hc Hl].
    destruct (step_session s ev Hev Hrec) as [Hrec' _].
    destruct (step_session_frame s ev Hev Hrec) as (Hcfg & _).
    destruct (IH (step s ev) Hrec') as (Hc' & Hl' & Hr'); try assumption.
    { now rewrite Hcfg. }
    cbn [fold_left]; repeat split; congruence.
Qed.

Lemma manual_session_never_stops_itself_witness :
  let self := start_recording "20260101_120000" 0
                (init (default_settings "Recordings")) in
  let s := {| app := self; locals := recording_thread_enter self;
              status := Looping |} in
  let evs := [EvInput [(0, 0)]; EvThread 5; EvInput [(0, 0)]; EvThread 10] in
  after_calls (app (run evs s)) = [] /\ status (run evs s) = Looping.
Proof.
  intros self s evs.
  destruct (manual_session_never_stops_itself evs s eq_refl eq_refl eq_refl eq_refl)
    as (H1 & H2 & _).
  split; [exact H1 | exact H2].
Defined.

(** ** From start to file *)

Lemma concat_nonempty_inv {A : Type} (l : list (list A)) :
  concat l <> [] -> l <> [].
Proof. intros H ->; now apply H. Qed.

(** X12: A session started with an empty recording queue, run through any
    interleaving of callbacks and recording thread that ends with the queue
    collected, then stopped and saved without a write error, adds exactly one
    file: it is named after the folder, prefix, counter and timestamp of the
    start, and holds the delivered blocks joined in order, trimmed when a
    trim flag is on.  A take with at least one row is never discarded. *)
Theorem session_saved_whole
  (timestamp : string) (now : R) (evs : list event) (s : system) :
  is_recording (app s) = false ->
  audio_queue (app s) = [] ->
  forallb audio_turn evs = true ->
  let s1 := run (EvStart timestamp now :: evs) s in
  audio_queue (app s1) = [] ->
  concat (inputs evs) <> [] ->
  let c := cfg (app s) in
  let take := np_concatenate (inputs evs) in
  files (app (run [EvStop; EvSave false] s1)) =
    files (app s) ++
    [(os_path_join (output_folder c)
        (prefix_var c ++ "_" ++ format_04d (counter_var (app s)) ++ "_"
         ++ timestamp ++ ".wav")%string,
      if trim_silence_start (trim c) || trim_silence_end (trim c)
      then trim_silence (trim c) take else take)].
Proof.
  intros Hidle Hq Hevs s1 Hq1 Hne c take.
  set (s0 := step s (EvStart timestamp now)).
  assert (Hs1 : s1 = run evs s0) by reflexivity.
  assert (Happ0 : app s0 = start_recording timestamp now (app s)).
  { unfold s0; cbn [step]; now rewrite Hidle. }
  assert (Hrec0 : is_recording (app s0) = true).
  { rewrite Happ0; unfold start_recording; now rewrite Hidle. }
  assert (Hfields : cfg (app s0) = c /\ files (app s0) = files (app s) /\
                    captured (app s0) = [] /\
                    current_filename (app s0) =
                      Some (os_path_join (output_folder c)
                        (prefix_var c ++ "_" ++ format_04d (counter_var (app s))
                         ++ "_" ++ timestamp ++ ".wav")%string)).
  { rewrite Happ0; unfold start_recording, captured; rewrite Hidle; cbn.
    now rewrite Hq. }
  destruct Hfields as (Hc0 & Hf0 & Hcap0 & Hname0).
  destruct (run_session evs s0 Hrec0 Hevs) as [Hrec1 Hcap1].
  destruct (run_session_frame evs s0 Hevs Hrec0) as (Hc1 & _ & Hname1 & Hf1).
  rewrite <- Hs1 in *; clearbody s1.
  rewrite Hcap0, app_nil_l in Hcap1.
  unfold captured in Hcap1; rewrite Hq1, app_nil_r in Hcap1.
  unfold run; cbn [fold_left step app].
  unfold stop_recording; rewrite Hrec1; cbn [negb].
  unfold save_recording; simpl.
  rewrite Hcap1, Hc1, Hc0.
  pose proof (concat_nonempty_inv _ Hne) as Hne'.
  destruct (inputs evs) as [|b0 bs] eqn:Hin;
    [exfalso; apply Hne'; first [assumption | reflexivity]|].
  fold take.
  assert (Hlen : len take <> 0%nat).
  { unfold take, np_concatenate; cbn [len].
    intros H0; apply Hne; now apply length_zero_iff_nil. }
  assert (Hlen' : len (if trim_silence_start (trim c) || trim_silence_end (trim c)
                       then trim_silence (trim c) take else take) <> 0%nat).
  { destruct (trim_silence_start (trim c) || trim_silence_end (trim c));
      [now apply trim_silence_nonempty | assumption]. }
  destruct (Nat.eqb_spec
              (len (if trim_silence_start (trim c) || trim_silence_end (trim c)
                    then trim_silence (trim c) take else take)) 0)
    as [H0 | _]; [contradiction|].
  rewrite Hname1, Hname0; cbn.
  now rewrite Hf1, Hf0.
Qed.

Lemma session_saved_whole_witness :
  let s := {| app := init (default_settings "Recordings");
              locals := recording_thread_enter (init (default_settings "Recordings"));
              status := Exited |} in
  let evs := [EvInput [(1, 1)]; EvThread 1] in
  files (app (run [EvStop; EvSave false]
                (run (EvStart "20260101_120000" 0 :: evs) s))) =
  [(os_path_join "Recordings" "Recording_0001_20260101_120000.wav",
    trim_silence (trim (default_settings "Recordings"))
      (np_concatenate [[(1, 1)]]))].
Proof.
  intros s evs.
  refine (session_saved_whole "20260101_120000" 0 evs s
            eq_refl eq_refl eq_refl eq_refl _).
  discriminate.
Defined.

(** X13: Blocks still waiting in the recording queue when a session is stopped
    are not part of its file and are never discarded: they stay queued, and
    the oldest of them becomes the first block collected by the next
    session. *)
Theorem leftover_block_opens_next_session
  (b : block) (rest : list block) (write_raises : bool)
  (timestamp : string) (now now' : R) (s : system) :
  is_recording (app s) = true ->
  audio_queue (app s) = b :: rest ->
  let stopped := run [EvStop; EvSave write_raises] s in
  let s' := run [EvStart timestamp now; EvThread now'] stopped in
  audio_queue (app stopped) = b :: rest /\
  recorded_frames (app stopped) = recorded_frames (app s) /\
  recorded_frames (app s') = [b] /\
  audio_queue (app s') = rest.
Proof.
  intros Hrec Hq stopped s'.
  assert (Hstop : app stopped = save_recording write_raises
                                  (set_is_recording false (app s))).
  { unfold stopped, run; cbn [fold_left step app].
    unfold stop_recording; now rewrite Hrec. }
  assert (Hfields : is_recording (app stopped) = false /\
                    audio_queue (app stopped) = b :: rest /\
                    recorded_frames (app stopped) = recorded_frames (app s)).
  { rewrite Hstop; unfold save_recording; simpl; split_ifs;
      repeat split; assumption. }
  destruct Hfields as (Hidle & Hq' & Hf').
  split; [exact Hq' | split; [exact Hf' |]].
  subst s'; clear Hstop; clearbody stopped.
  unfold run; cbn [fold_left step app status].
  rewrite Hidle; cbn [app locals status].
  unfold start_recording; rewrite Hidle.
  unfold recording_thread_iter; simpl; rewrite Hq'; simpl.
  split_ifs; now split.
Qed.

Lemma leftover_block_opens_next_session_witness :
  let self := set_audio_queue [[(1, 1)]; [(2, 2)]]
                (start_recording "20260101_120000" 0
                   (init (default_settings "Recordings"))) in
  let s := {| app := self; locals := recording_thread_enter self;
              status := Looping |} in
  recorded_frames
    (app (run [EvStart "20260101_120100" 60; EvThread 61]
              (run [EvStop; EvSave false] s))) = [[(1, 1)]].
Proof.
  intros self s.
  exact (proj1 (proj2 (proj2
           (leftover_block_opens_next_session [(1, 1)] [[(2, 2)]] false
              "20260101_120100" 60 61 s eq_refl eq_refl)))).
Defined.

(** ** Level meters on screen *)

Lemma level_normalized_bounds (level : R) : 0 <= level_normalized level <= 1.
Proof.
  unfold level_normalized, Rmax, Rmin.
  destruct (Rle_dec 1 ((level + 60) / 60));
    destruct (Rle_dec 0 _); lra.
Qed.

Lemma level_normalized_mono (l1 l2 : R) :
  l1 <= l2 -> level_normalized l1 <= level_normalized l2.
Proof.
  intros H; unfold level_normalized, Rmax, Rmin.
  destruct (Rle_dec 1 ((l1 + 60) / 60));
    destruct (Rle_dec 1 ((l2 + 60) / 60));
    repeat match goal with |- context [Rle_dec ?a ?b] => destruct (Rle_dec a b) end;
    lra.
Qed.

Lemma py_int_integer (z : Z) : py_int (IZR z) = z.
Proof.
  assert (Hip : forall k : Z, Int_part (IZR k) = k)
    by (intros k; symmetry; apply Int_part_spec; lra).
  unfold py_int; destruct (Rle_dec 0 (IZR z)); [apply Hip|].
  rewrite <- opp_IZR, Hip; lia.
Qed.

Lemma py_int_mono (x y : R) : 0 <= x -> x <= y -> (py_int x <= py_int y)%Z.
Proof.
  intros Hx Hxy.
  pose proof (py_int_floor x Hx) as [H1 _].
  pose proof (py_int_floor y ltac:(lra)) as [_ H2].
  assert (H : IZR (py_int x) < IZR (py_int y + 1)) by (rewrite plus_IZR; lra).
  apply lt_IZR in H; lia.
Qed.

(** X14: The bar of a level meter always fits its 400-pixel canvas: it is empty
    up to -60 dB, full from 0 dB, and never shrinks when the level rises. *)
Theorem bar_width_range (level : R) :
  (0 <= bar_width level <= 400)%Z /\
  (level <= -60 -> bar_width level = 0%Z) /\
  (0 <= level -> bar_width level = 400%Z) /\
  (forall level', level <= level' -> (bar_width level <= bar_width level')%Z).
Proof.
  pose proof (level_normalized_bounds level) as Hb.
  assert (H0 : py_int 0 = 0%Z) by exact (py_int_integer 0).
  assert (H400 : py_int 400 = 400%Z) by exact (py_int_integer 400).
  unfold bar_width.
  split; [|split; [|split]].
  - pose proof (py_int_mono 0 (400 * level_normalized level)
                  ltac:(lra) ltac:(lra)) as Hlo.
    pose proof (py_int_mono (400 * level_normalized level) 400
                  ltac:(lra) ltac:(lra)) as Hhi.
    rewrite H0 in Hlo; rewrite H400 in Hhi; lia.
  - intros Hl.
    replace (level_normalized level) with 0; [now rewrite Rmult_0_r|].
    unfold level_normalized, Rmax, Rmin.
    destruct (Rle_dec 1 ((level + 60) / 60)); destruct (Rle_dec 0 _); lra.
  - intros Hl.
    replace (level_normalized level) with 1; [now rewrite Rmult_1_r|].
    unfold level_normalized, Rmax, Rmin.
    destruct (Rle_dec 1 ((level + 60) / 60)); destruct (Rle_dec 0 _); lra.
  - intros level' Hle.
    pose proof (level_normalized_mono level level' Hle).
    apply py_int_mono; lra.
Qed.

Lemma bar_width_range_witness : bar_width (-100) = 0%Z /\ bar_width 3 = 400%Z.
Proof.
  split.
  - apply (proj1 (proj2 (bar_width_range (-100)))); lra.
  - apply (proj1 (proj2 (proj2 (bar_width_range 3)))); lra.
Defined.

(** X15: Colour and bar agree: a red meter (above -6 dB) is at least 360 pixels
    wide, a yellow one (above -18 dB up to -6 dB) between 280 and 360, and a
    green one at most 280. *)
Theorem meter_colour_bands (level : R) :
  match meter_colour level with
  | red => level > -6 /\ (360 <= bar_width level <= 400)%Z
  | yellow => -18 < level <= -6 /\ (280 <= bar_width level <= 360)%Z
  | green => level <= -18 /\ (0 <= bar_width level <= 280)%Z
  end.
Proof.
  assert (Hn : forall l, -60 <= l <= 0 -> level_normalized l = (l + 60) / 60).
  { intros l Hl; unfold level_normalized, Rmax, Rmin.
    destruct (Rle_dec 1 ((l + 60) / 60)); destruct (Rle_dec 0 _); lra. }
  assert (H360 : bar_width (-6) = 360%Z).
  { unfold bar_width; rewrite Hn by lra.
    replace (400 * ((-6 + 60) / 60)) with (IZR 360) by lra.
    apply py_int_integer. }
  assert (H280 : bar_width (-18) = 280%Z).
  { unfold bar_width; rewrite Hn by lra.
    replace (400 * ((-18 + 60) / 60)) with (IZR 280) by lra.
    apply py_int_integer. }
  assert (Hmono : forall l l', l <= l' -> (bar_width l <= bar_width l')%Z).
  { intros l l' Hle; unfold bar_width.
    pose proof (level_normalized_bounds l).
    pose proof (level_normalized_mono l l' Hle).
    apply py_int_mono; lra. }
  assert (Hrange : forall l, (0 <= bar_width l <= 400)%Z).
  { intros l; unfold bar_width.
    pose proof (level_normalized_bounds l) as Hb.
    pose proof (py_int_mono 0 (400 * level_normalized l)
                  ltac:(lra) ltac:(lra)) as Hlo.
    pose proof (py_int_mono (400 * level_normalized l) 400
                  ltac:(lra) ltac:(lra)) as Hhi.
    rewrite (py_int_integer 0) in Hlo; rewrite (py_int_integer 400) in Hhi; lia. }
  unfold meter_colour.
  destruct (Rgt_dec level (-6)) as [Hr | Hr].
  - split; [exact Hr|].
    pose proof (Hmono (-6) level ltac:(lra)); pose proof (Hrange level); lia.
  - destruct (Rgt_dec level (-18)) as [Hy | Hy].
    + split; [lra|].
      pose proof (Hmono (-18) level ltac:(lra));
        pose proof (Hmono level (-6) ltac:(lra)); lia.
    + split; [lra|].
      pose proof (Hmono level (-18) ltac:(lra)); pose proof (Hrange level); lia.
Qed.


(** ** Duration label *)

Lemma format_02d_two_digits (n : Z) :
  (0 <= n <= 99)%Z -> format_02d n = two_digits n.
Proof.
  intros Hn.
  assert (H : forallb (fun k => String.eqb (format_02d (Z.of_nat k))
                                           (two_digits (Z.of_nat k)))
                      (seq 0 100) = true) by (vm_compute; reflexivity).
  rewrite forallb_forall in H.
  specialize (H (Z.to_nat n)).
  rewrite Z2Nat.id in H by lia.
  apply String.eqb_eq, H, in_seq; lia.
Qed.

Lemma py_mod_60_range (d : R) : 0 <= py_mod d 60 < 60.
Proof.
  unfold py_mod, py_floordiv.
  pose proof (base_Int_part (d / 60)) as [H1 H2].
  lra.
Qed.

(** X17: During a session the duration label shows the whole seconds elapsed
    since the start, split into minutes and a two-digit seconds field that
    stays between 00 and 59, and the update is scheduled again. *)
Theorem update_duration_clock (now started : R) (self : recorder) :
  is_recording self = true ->
  recording_start_time self = Some started ->
  started <= now ->
  exists minutes seconds : Z,
    (0 <= minutes)%Z /\ (0 <= seconds <= 59)%Z /\
    (60 * minutes + seconds)%Z = Int_part (now - started) /\
    update_duration now self =
      (("Duration: " ++ py_str minutes ++ ":" ++ two_digits seconds)%string, true).
Proof.
  intros Hrec Hstart Hle.
  set (d := now - started).
  assert (Hd : 0 <= d) by (unfold d; lra).
  set (q := Int_part (d / 60)).
  pose proof (base_Int_part (d / 60)) as [Hq1 Hq2]; fold q in Hq1, Hq2.
  pose proof (py_mod_60_range d) as Hr.
  assert (Hmin : py_int (py_floordiv d 60) = q) by apply py_int_integer.
  assert (Hq0 : (0 <= q)%Z).
  { assert (H : IZR (-1) < IZR q) by lra. apply lt_IZR in H; lia. }
  set (r := py_mod d 60) in *.
  assert (Hr' : r = d - 60 * IZR q) by reflexivity.
  pose proof (py_int_floor r ltac:(lra)) as [Hs1 Hs2].
  assert (Hs0 : (0 <= py_int r)%Z).
  { pose proof (py_int_mono 0 r ltac:(lra) ltac:(lra)) as H.
    now rewrite (py_int_integer 0) in H. }
  assert (Hs59 : (py_int r <= 59)%Z).
  { assert (H : IZR (py_int r) < IZR 60) by lra. apply lt_IZR in H; lia. }
  exists q, (py_int r).
  split; [exact Hq0 | split; [lia | split]].
  - apply Int_part_spec; fold d.
    rewrite plus_IZR, mult_IZR; lra.
  - unfold update_duration; rewrite Hrec, Hstart; fold d; cbv zeta.
    fold r; rewrite Hmin, format_02d_two_digits by lia.
    reflexivity.
Qed.

Lemma update_duration_clock_witness :
  let self := start_recording "20260101_120000" 0
                (init (default_settings "Recordings")) in
  exists minutes seconds : Z,
    (60 * minutes + seconds)%Z = Int_part (125 - 0) /\
    update_duration 125 self =
      (("Duration: " ++ py_str minutes ++ ":" ++ two_digits seconds)%string, true).
Proof.
  intros self.
  destruct (update_duration_clock 125 0 self eq_refl eq_refl ltac:(lra))
    as (m & sec & _ & _ & H1 & H2).
  exists m, sec; split; [exact H1 | exact H2].
Defined.

(** ** Settings file *)

(** X18: What is saved comes back on the next load, whatever the attributes held
    before: the prefix, counter, silence threshold and silence duration as
    they stood in the Tk variables, the other attributes as they stood in
    [self].  Two attributes are treated differently: the armed state is
    written but never read back, and the editor path is taken from the file
    only when it is truthy. *)
Theorem settings_round_trip
  (self other : Persist.fields) (v : Persist.vars) :
  Persist.load_settings (Some (Persist.save_settings self v)) other =
  {| Persist.output_folder := Persist.output_folder self;
     Persist.file_prefix := Persist.JStr (Persist.prefix_var v);
     Persist.file_counter := Persist.JInt (Persist.counter_var v);
     Persist.input_device_index := Persist.input_device_index self;
     Persist.output_device_index := Persist.output_device_index self;
     Persist.auto_mode := Persist.auto_mode self;
     Persist.silence_threshold_db := Persist.JFloat (Persist.threshold_var v);
     Persist.silence_duration := Persist.JFloat (Persist.duration_var v);
     Persist.rx11_auto_open := Persist.rx11_auto_open self;
     Persist.rx11_path :=
       if Persist.truthy (Persist.rx11_path self)
       then Persist.rx11_path self else Persist.rx11_path other;
     Persist.monitor_volume := Persist.monitor_volume self;
     Persist.is_armed := Persist.is_armed other;
     Persist.trim_silence_start := Persist.trim_silence_start self;
     Persist.trim_silence_end := Persist.trim_silence_end self;
     Persist.trim_threshold_db := Persist.trim_threshold_db self;
     Persist.create_video := Persist.create_video self;
     Persist.video_folder := Persist.video_folder self;
     Persist.video_resolution := Persist.video_resolution self |}.
Proof. reflexivity. Qed.

Lemma get_absent (d : Persist.dict) (key : string) (default : Persist.json) :
  Persist.lookup key d = None -> Persist.get d key default = default.
Proof. unfold Persist.get; now intros ->. Qed.

(** X19: A missing or unreadable file, and a file that holds none of the known
    keys, leave every attribute as it was. *)
Theorem load_settings_keeps_defaults
  (file : option Persist.dict) (self : Persist.fields) :
  (forall settings key,
     file = Some settings -> In key Persist.loaded_keys ->
     Persist.lookup key settings = None) ->
  Persist.load_settings file self = self.
Proof.
  intros H; destruct file as [settings|]; [|reflexivity].
  assert (Hk : forall key default, In key Persist.loaded_keys ->
                 Persist.get settings key default = default).
  { intros key default Hin; apply get_absent; now apply (H settings key). }
  unfold Persist.load_settings.
  rewrite !Hk by (unfold Persist.loaded_keys; simpl; tauto).
  destruct self; reflexivity.
Qed.

Lemma load_settings_keeps_defaults_witness :
  let self :=
    {| Persist.output_folder := Persist.JStr "Recordings";
       Persist.file_prefix := Persist.JStr "Recording";
       Persist.file_counter := Persist.JInt 1;
       Persist.input_device_index := Persist.JNull;
       Persist.output_device_index := Persist.JNull;
       Persist.auto_mode := Persist.JBool false;
       Persist.silence_threshold_db := Persist.JFloat (-40);
       Persist.silence_duration := Persist.JFloat 2;
       Persist.rx11_auto_open := Persist.JBool false;
       Persist.rx11_path := Persist.JNull;
       Persist.monitor_volume := Persist.JFloat (7 / 10);
       Persist.is_armed := Persist.JBool false;
       Persist.trim_silence_start := Persist.JBool true;
       Persist.trim_silence_end := Persist.JBool true;
       Persist.trim_threshold_db := Persist.JFloat (-50);
       Persist.create_video := Persist.JBool false;
       Persist.video_folder := Persist.JStr "Picsforrev";
       Persist.video_resolution := Persist.JStr "1080p" |} in
  Persist.load_settings (Some [("theme"%string, Persist.JStr "dark")]) self = self.
Proof.
  intros self; apply load_settings_keeps_defaults.
  intros settings key Heq Hin; injection Heq as <-.
  unfold Persist.loaded_keys in Hin; simpl in Hin.
  repeat (destruct Hin as [<- | Hin]; [reflexivity|]); contradiction.
Defined.

(** ** Device labels *)

Lemma before_colon_uint (d : Decimal.uint) (rest : string) :
  before_colon (NilEmpty.string_of_uint d ++ String ":" rest) =
  NilEmpty.string_of_uint d.
Proof.
  induction d; cbn [NilEmpty.string_of_uint String.append before_colon Ascii.eqb];
    try (simpl; rewrite IHd; reflexivity).
  simpl; reflexivity.
Qed.

Lemma before_colon_py_str (n : Z) (rest : string) :
  (0 <= n)%Z -> before_colon (py_str n ++ String ":" rest) = py_str n.
Proof.
  intros Hn; unfold py_str.
  destruct n as [|p|p]; [reflexivity | | lia].
  cbn [Z.to_int NilZero.string_of_int].
  pose proof (Unsigned.to_uint_nonnil p) as Hnil.
  unfold NilZero.string_of_uint.
  destruct (Pos.to_uint p) eqn:E; try congruence;
    rewrite <- E; apply before_colon_uint.
Qed.

Lemma py_int_of_str_py_str (n : Z) : py_int_of_str (py_str n) = Some n.
Proof.
  unfold py_int_of_str, py_str.
  rewrite NilZero.isi.
  - cbn [option_map]; now rewrite DecimalZ.of_to.
  - destruct n as [|p|p]; cbn [Z.to_int]; try discriminate.
    intros H; injection H as H; now apply (Unsigned.to_uint_nonnil p).
  - destruct n as [|p|p]; cbn [Z.to_int]; try discriminate.
    intros H; injection H as H; now apply (Unsigned.to_uint_nonnil p).
Qed.

Lemma device_label_index (i : nat) (d : device) :
  py_int_of_str (before_colon (device_label i d)) = Some (Z.of_nat i).
Proof.
  unfold device_label.
  change (": " ++ name d)%string with (String ":" (String " " (name d))).
  rewrite before_colon_py_str by lia.
  apply py_int_of_str_py_str.
Qed.

(** X20: The index read back from a device label, [int(label.split(':')[0])], is
    the index the label was made from, whatever the device name - colons
    included - for every index that the interpreter can write in decimal
    (fewer than 4301 digits). *)
Theorem device_label_round_trip (i : nat) (d : device) :
  (Z.of_nat i < 10 ^ 4300)%Z ->
  py_int_of_str (before_colon (device_label i d)) = Some (Z.of_nat i).
Proof. intros _; apply device_label_index. Qed.

Lemma device_label_round_trip_witness :
  (Z.of_nat 12 < 10 ^ 4300)%Z /\
  device_label 12 {| name := "USB: Audio 6"; max_input_channels := 2 |}
    = "12: USB: Audio 6"%string /\
  py_int_of_str
    (before_colon
       (device_label 12 {| name := "USB: Audio 6"; max_input_channels := 2 |}))
    = Some 12%Z.
Proof.
  assert (H : (Z.of_nat 12 < 10 ^ 4300)%Z) by (vm_compute; reflexivity).
  split; [exact H|].
  split; [reflexivity|].
  exact (device_label_round_trip 12
           {| name := "USB: Audio 6"; max_input_channels := 2 |} H).
Defined.

(** ** Choice of the input device *)

Lemma scan_devices_labels_prefix
  (devices : list device) (i : nat) (acc : list string) (idx : option Z) :
  exists more, fst (scan_devices i devices acc idx) = acc ++ more.
Proof.
  revert i acc idx; induction devices as [|d rest IH]; intros i acc idx; simpl.
  - exists []; now rewrite app_nil_r.
  - destruct (2 <=? max_input_channels d)%Z.
    + destruct (IH (S i) (acc ++ [device_label i d])
                   (if is_traktor d then Some (Z.of_nat i) else idx))
        as [more Hm].
      exists (device_label i d :: more).
      now rewrite Hm, <- app_assoc.
    + apply IH.
Qed.

Lemma scan_devices_none_listed
  (devices : list device) (i : nat) (acc : list string) (idx : option Z) :
  (forall d, In d devices -> (2 <=? max_input_channels d)%Z = false) ->
  scan_devices i devices acc idx = (acc, idx).
Proof.
  revert i; induction devices as [|d rest IH]; intros i H; simpl; [reflexivity|].
  rewrite (H d (or_introl eq_refl)).
  apply IH; intros d' Hd'; apply H; now right.
Qed.

Lemma scan_devices_first_listed
  (devices : list device) (i : nat) (acc : list string) (idx : option Z)
  (k : nat) (d : device) :
  nth_error devices k = Some d ->
  (2 <=? max_input_channels d)%Z = true ->
  (forall j d', (j < k)%nat -> nth_error devices j = Some d' ->
                (2 <=? max_input_channels d')%Z = false) ->
  exists more,
    fst (scan_devices i devices acc idx) = acc ++ device_label (i + k) d :: more.
Proof.
  revert i acc idx k; induction devices as [|d0 rest IH];
    intros i acc idx k Hk He Hfirst.
  - destruct k; discriminate.
  - destruct k as [|k]; simpl in Hk.
    + injection Hk as ->; simpl; rewrite He, Nat.add_0_r.
      destruct (scan_devices_labels_prefix rest (S i) (acc ++ [device_label i d])
                  (if is_traktor d then Some (Z.of_nat i) else idx))
        as [more Hm].
      exists more; now rewrite Hm, <- app_assoc.
    + simpl; rewrite (Hfirst 0%nat d0 ltac:(lia) eq_refl).
      destruct (IH (S i) acc idx k Hk He) as [more Hm].
      { intros j d' Hj Hd'; apply (Hfirst (S j) d'); [lia | exact Hd']. }
      exists more; rewrite Hm; do 3 f_equal; lia.
Qed.

Lemma scan_devices_no_preferred
  (devices : list device) (i : nat) (acc : list string) (idx : option Z) :
  (forall d, In d devices -> preferred d = false) ->
  snd (scan_devices i devices acc idx) = idx.
Proof.
  revert i acc; induction devices as [|d rest IH]; intros i acc H; simpl;
    [reflexivity|].
  pose proof (H d (or_introl eq_refl)) as Hd; unfold preferred in Hd.
  destruct (2 <=? max_input_channels d)%Z; simpl in Hd.
  - rewrite Hd; apply IH; intros d' Hd'; apply H; now right.
  - apply IH; intros d' Hd'; apply H; now right.
Qed.

Lemma scan_devices_last_preferred
  (devices : list device) (i : nat) (acc : list string) (idx : option Z)
  (k : nat) (d : device) :
  nth_error devices k = Some d ->
  preferred d = true ->
  (forall j d', (k < j)%nat -> nth_error devices j = Some d' ->
                preferred d' = false) ->
  snd (scan_devices i devices acc idx) = Some (Z.of_nat (i + k)).
Proof.
  revert i acc idx k; induction devices as [|d0 rest IH];
    intros i acc idx k Hk Hp Hlast.
  - destruct k; discriminate.
  - destruct k as [|k]; simpl in Hk.
    + injection Hk as ->; simpl.
      unfold preferred in Hp; apply andb_prop in Hp as [He Ht].
      rewrite He, Ht, Nat.add_0_r.
      apply scan_devices_no_preferred.
      intros d' Hd'; apply In_nth_error in Hd' as [j Hj].
      apply (Hlast (S j) d'); [lia | exact Hj].
    + assert (Hrest : forall acc' idx',
                snd (scan_devices (S i) rest acc' idx')
                = Some (Z.of_nat (i + S k))).
      { intros acc' idx'.
        rewrite (IH (S i) acc' idx' k Hk Hp).
        - do 2 f_equal; lia.
        - intros j d' Hj Hd'; apply (Hlast (S j) d'); [lia | exact Hd']. }
      simpl; destruct (2 <=? max_input_channels d0)%Z; apply Hrest.
Qed.

Lemma py_index_of_nat {A : Type} (l : list A) (i : nat) :
  py_index l (Z.of_nat i) = nth_error l i.
Proof.
  unfold py_index.
  destruct (Z.leb_spec 0 (Z.of_nat i)); [now rewrite Nat2Z.id | lia].
Qed.

(** X21: For devices with ASCII names, in a list short enough for its indices
    to be written in decimal, the input device is chosen as follows, and the
    method never fails on reading an index back from a label.  A listed
    device whose name contains "traktor" or "audio 6" takes precedence over a
    saved index, and among several the last one wins.  Without such a device
    a saved index that exists in the list is kept; with no saved index, or a
    saved index out of range, the first listed device (two input channels or
    more) is chosen; and with nothing listed the index is left as it was. *)
Theorem populate_input_devices_choice
  (devices : list device) (saved : option Z) :
  (forall d, In d devices -> isascii (name d) = true) ->
  (Z.of_nat (length devices) < 10 ^ 4300)%Z ->
  (forall i d,
     nth_error devices i = Some d -> preferred d = true ->
     (forall j d', (i < j)%nat -> nth_error devices j = Some d' ->
                   preferred d' = false) ->
     exists labels,
       populate_input_devices devices saved = Some (labels, Some (Z.of_nat i))) /\
  ((forall d, In d devices -> preferred d = false) ->
   (forall idx, saved = Some idx -> py_index devices idx <> None ->
      exists labels,
        populate_input_devices devices saved = Some (labels, Some idx)) /\
   (saved = None \/ (exists idx, saved = Some idx /\ py_index devices idx = None) ->
    (forall i d,
       nth_error devices i = Some d ->
       (2 <=? max_input_channels d)%Z = true ->
       (forall j d', (j < i)%nat -> nth_error devices j = Some d' ->
                     (2 <=? max_input_channels d')%Z = false) ->
       exists labels,
         populate_input_devices devices saved = Some (labels, Some (Z.of_nat i))) /\
    ((forall d, In d devices -> (2 <=? max_input_channels d)%Z = false) ->
     populate_input_devices devices saved = Some ([], saved)))).
Proof.
  intros _ _; split.
  - intros i d Hi Hp Hlast; unfold populate_input_devices.
    pose proof (scan_devices_last_preferred devices 0 [] saved i d Hi Hp Hlast) as Hs.
    destruct (scan_devices 0 devices [] saved) as [labels idx]; simpl in Hs.
    subst idx; rewrite py_index_of_nat, Hi.
    now exists labels.
  - intros Hnone.
    pose proof (scan_devices_no_preferred devices 0 [] saved Hnone) as Hs.
    split.
    + intros idx -> Hidx; unfold populate_input_devices.
      destruct (scan_devices 0 devices [] (Some idx)) as [labels idx']; simpl in Hs.
      subst idx'; destruct (py_index devices idx); [|congruence].
      now exists labels.
    + intros Hsaved; split.
      * intros i d Hi He Hfirst; unfold populate_input_devices.
        destruct (scan_devices_first_listed devices 0 [] saved i d Hi He Hfirst)
          as [more Hm].
        destruct (scan_devices 0 devices [] saved) as [labels idx'];
          simpl in Hs, Hm; subst idx' labels.
        exists (device_label i d :: more).
        destruct Hsaved as [-> | (idx & -> & Hout)];
          [| rewrite Hout]; unfold select_first;
          rewrite device_label_index; reflexivity.
      * intros Hnot; unfold populate_input_devices.
        rewrite (scan_devices_none_listed devices 0 [] saved Hnot).
        destruct Hsaved as [-> | (idx & -> & Hout)]; [reflexivity|].
        now rewrite Hout.
Qed.

Lemma populate_input_devices_choice_witness :
  let devices := [ {| name := "Built-in Microphone"; max_input_channels := 2 |};
                   {| name := "Traktor Audio 6 (MK2)"; max_input_channels := 6 |};
                   {| name := "HDMI Output"; max_input_channels := 0 |} ] in
  forallb (fun d => isascii (name d)) devices = true /\
  (Z.of_nat (length devices) < 10 ^ 4300)%Z /\
  exists labels,
    populate_input_devices devices (Some 0%Z) = Some (labels, Some 1%Z).
Proof.
  intros devices.
  assert (Hascii : forall d, In d devices -> isascii (name d) = true).
  { intros d [<- | [<- | [<- | []]]]; reflexivity. }
  assert (Hlen : (Z.of_nat (length devices) < 10 ^ 4300)%Z)
    by (vm_compute; reflexivity).
  split; [reflexivity | split; [exact Hlen|]].
  refine (proj1 (populate_input_devices_choice devices (Some 0%Z) Hascii Hlen)
            1%nat
            {| name := "Traktor Audio 6 (MK2)"; max_input_channels := 6 |}
            eq_refl eq_refl _).
  intros [|[|[|j]]] d' Hj Hd'; try lia.
  - injection Hd' as <-; reflexivity.
  - destruct j; discriminate.
Defined.

